(** * tools/update_oids.py: the marker-delimited splicer

    A shallow embedding of [update_file] and of its two callers, with the
    Python built-ins it relies on ([bytes.splitlines], [bytes.join],
    [re.match] on a bytes pattern, slice assignment, tuple unpacking) and
    the external world it touches (the files on disk, the [psql] and
    [black] processes). *)

From Stdlib Require Import ZArith Strings.Byte.
From stdpp Require Import gmap strings list fin_maps.

Local Open Scope nat_scope.

(** ** Bytes *)

Abbreviation bytes := (list byte).

Definition b (s : string) : bytes := String.list_byte_of_string s.

Definition LF : byte := x0a.
Definition CR : byte := x0d.

Definition is_LF (c : byte) : bool := Byte.eqb c LF.
Definition is_CR (c : byte) : bool := Byte.eqb c CR.

(** [STRINGLIB_ISLINEBREAK] for a bytes object: only LF and CR. *)
Definition is_linebreak (c : byte) : bool := is_LF c || is_CR c.

(** [bytes.splitlines()] with [keepends=False]: a line ends at LF, at CR or
    at CR LF (read as one break); the break is dropped; no empty line is
    produced for a break that ends the input. *)
Fixpoint splitlines (s : bytes) : list bytes :=
  match s with
  | [] => []
  | c :: rest =>
      if is_LF c then [] :: splitlines rest
      else if is_CR c then
        match rest with
        | c' :: rest' =>
            if is_LF c' then [] :: splitlines rest' else [] :: splitlines rest
        | [] => [[]]
        end
      else
        match splitlines rest with
        | [] => [[c]]
        | line :: more => (c :: line) :: more
        end
  end.

(** [sep.join(lines)]. *)
Fixpoint join (sep : bytes) (lines : list bytes) : bytes :=
  match lines with
  | [] => []
  | [line] => line
  | line :: more => line ++ sep ++ join sep more
  end.

(** ** Regular expressions on bytes

    The fragment of [re] the marker pattern uses.  [re.match] anchors the
    pattern at the start of the subject and succeeds when some prefix of
    the subject belongs to the language of the pattern. *)

Inductive regex : Type :=
  | Void : regex
  | Eps : regex
  | Class (p : byte → bool) : regex
  | Seq (r1 r2 : regex) : regex
  | Alt (r1 r2 : regex) : regex
  | Star (r : regex) : regex.

Fixpoint nullable (r : regex) : bool :=
  match r with
  | Void => false
  | Eps => true
  | Class _ => false
  | Seq r1 r2 => nullable r1 && nullable r2
  | Alt r1 r2 => nullable r1 || nullable r2
  | Star _ => true
  end.

Fixpoint deriv (c : byte) (r : regex) : regex :=
  match r with
  | Void => Void
  | Eps => Void
  | Class p => if p c then Eps else Void
  | Seq r1 r2 =>
      if nullable r1
      then Alt (Seq (deriv c r1) r2) (deriv c r2)
      else Seq (deriv c r1) r2
  | Alt r1 r2 => Alt (deriv c r1) (deriv c r2)
  | Star r1 => Seq (deriv c r1) (Star r1)
  end.

(** [re.match(r, s) is not None]. *)
Fixpoint re_match (r : regex) (s : bytes) : bool :=
  nullable r ||
  match s with
  | [] => false
  | c :: s' => re_match (deriv c r) s'
  end.

Definition Lit (s : bytes) : regex :=
  foldr (λ c r, Seq (Class (Byte.eqb c)) r) Eps s.

Definition Plus (r : regex) : regex := Seq r (Star r).

(** [\s] in a bytes pattern: the ASCII whitespace [ \t\n\r\f\v]. *)
Definition is_space (c : byte) : bool :=
  match c with
  | x09 | x0a | x0b | x0c | x0d | x20 => true
  | _ => false
  end.

Definition ws : regex := Class is_space.

(** [rb"\s*#\s*autogenerated:\s+"], the part of the pattern before the
    group. *)
Definition marker_head (tail : regex) : regex :=
  Seq (Star ws) (Seq (Lit (b "#")) (Seq (Star ws)
    (Seq (Lit (b "autogenerated:")) (Seq (Plus ws) tail)))).

(** [rb"\s*#\s*autogenerated:\s+(start|end)"]. *)
Definition marker_re : regex :=
  marker_head (Alt (Lit (b "start")) (Lit (b "end"))).

Definition is_marker (line : bytes) : bool := re_match marker_re line.

(** The same pattern with the group narrowed to one of its alternatives:
    which token a marker line carries. *)
Definition is_start_marker (line : bytes) : bool :=
  re_match (marker_head (Lit (b "start"))) line.
Definition is_end_marker (line : bytes) : bool :=
  re_match (marker_head (Lit (b "end"))) line.

(** ** The queries *)

Definition dquote : string := String (Ascii.ascii_of_nat 34) EmptyString.

Definition version_sql : string := "
select format($$
# Generated from PostgreSQL %s.%s
$$,
        setting::int / 10000, setting::int % 100)   -- assume PG >= 10
    from pg_settings
    where name = 'server_version_num'
".

Definition py_types_sql : string := "
select
    'TypeInfo('
    || array_to_string(array_remove(array[
        format('%L', typname),
        oid::text,
        typarray::text,
        case when oid::regtype::text != typname
            then format('alt_name=%L', oid::regtype)
        end,
        case when typdelim != ','
            then format('delimiter=%L', typdelim)
        end
    ], null), ',')
    || '),'
from pg_type t
where
    oid < 10000
    and oid != '" +:+ dquote +:+ "char" +:+ dquote +:+ "'::regtype
    and (typtype = 'b' or typname = 'record')
    and (typname !~ '^(_|pg_)' or typname = 'pg_lsn')
order by typname
".

Definition py_ranges_sql : string := "
select
    format('RangeInfo(%L, %s, %s, subtype_oid=%s),',
        typname, oid, typarray, rngsubtype)
from
    pg_type t
    join pg_range r on t.oid = rngtypid
where
    oid < 10000
    and typtype = 'r'
    and (typname !~ '^(_|pg_)' or typname = 'pg_lsn')
order by typname
".

Definition py_multiranges_sql : string := "
select
    format('MultirangeInfo(%L, %s, %s, range_oid=%s, subtype_oid=%s),',
        typname, oid, typarray, rngtypid, rngsubtype)
from
    pg_type t
    join pg_range r on t.oid = rngmultitypid
where
    oid < 10000
    and typtype = 'm'
    and (typname !~ '^(_|pg_)' or typname = 'pg_lsn')
order by typname
".

Definition cython_oids_sql : string := "
select format('%s_OID = %s', upper(typname), oid)
from pg_type
where
    oid < 10000
    and (typtype = any('{b,r,m}') or typname = 'record')
    and (typname !~ '^(_|pg_)' or typname = 'pg_lsn')
order by typname
".

(** ** The world: files on disk and external processes *)

Inductive exn : Type :=
  | FileNotFoundError (fn : string)
  | CalledProcessError (returncode : Z)
  | OSError
  | ValueError_not_enough (expected got : nat)
  | ValueError_too_many (expected : nat).

Inductive result (A : Type) : Type :=
  | Ok (a : A)
  | Raise (e : exn).
Arguments Ok {A} a.
Arguments Raise {A} e.

(** [clock] counts the external processes started so far: a process run
    at another moment may answer differently. *)
Record world : Type := World { files : gmap string bytes; clock : nat }.

(** What a child process did: it exited with a return code and an
    output, or it could not be started. *)
Inductive proc_result : Type :=
  | Exited (returncode : Z) (out : bytes)
  | CannotRun.

Definition M (A : Type) : Type := world → world * result A.

Definition ret {A} (a : A) : M A := λ w, (w, Ok a).
Definition raise {A} (e : exn) : M A := λ w, (w, Raise e).
Definition bind {A B} (m : M A) (k : A → M B) : M B :=
  λ w, match m w with
       | (w', Ok a) => k a w'
       | (w', Raise e) => (w', Raise e)
       end.

Notation "'do' x <- m ; k" := (bind m (λ x, k))
  (at level 10, x name, m at level 100, k at level 200,
   format "'[v' 'do'  x  <-  m ; '/' k ']'").
Notation "'run' m ; k" := (bind m (λ _, k))
  (at level 10, m at level 100, k at level 200,
   format "'[v' 'run'  m ; '/' k ']'").

(** [fn.open("rb")] followed by [f.read()]. *)
Definition read_file (fn : string) : M bytes :=
  λ w, match files w !! fn with
       | Some content => (w, Ok content)
       | None => (w, Raise (FileNotFoundError fn))
       end.

(** [fn.open("wb")]: the file is created or truncated. *)
Definition open_wb (fn : string) : M unit :=
  λ w, (World (<[fn := []]> (files w)) (clock w), Ok tt).

(** [f.write(data)] on a file opened by [open_wb]: appends. *)
Definition write (fn : string) (data : bytes) : M unit :=
  λ w, (World (<[fn := default [] (files w !! fn) ++ data]> (files w)) (clock w),
        Ok tt).

(** [re.match] per line of [enumerate(lines)], keeping the indices. *)
Fixpoint enumerate_from {A} (i : nat) (l : list A) : list (nat * A) :=
  match l with
  | [] => []
  | x :: l' => (i, x) :: enumerate_from (S i) l'
  end.

Definition enumerate {A} (l : list A) : list (nat * A) := enumerate_from 0 l.

Definition marker_indices (lines : list bytes) : list nat :=
  (filter (λ p, is_marker p.2 = true) (enumerate lines)).*1.

(** [istart, iend = [...]]: unpacking a list into two names. *)
Definition unpack2 (l : list nat) : M (nat * nat) :=
  match l with
  | [i; j] => ret (i, j)
  | _ :: _ :: _ :: _ => raise (ValueError_too_many 2)
  | _ => raise (ValueError_not_enough 2 (length l))
  end.

(** [lines[i:j] = new] for non-negative [i], [j]: both bounds are clipped
    to the length, and an upper bound below the lower one is raised to
    it. *)
Definition slice_assign {A} (lines : list A) (i j : nat) (new : list A) : list A :=
  let lo := i `min` length lines in
  let hi := lo `max` (j `min` length lines) in
  take lo lines ++ new ++ drop hi lines.

(** [s * n] on bytes. *)
Definition bytes_mul (s : bytes) (n : nat) : bytes := concat (replicate n s).

(** The list comprehension marked [# indent]: four spaces before a
    line that is not empty, the empty line otherwise. *)
Definition indent_line (line : bytes) : bytes :=
  match line with
  | [] => []
  | _ :: _ => bytes_mul (b " ") 4 ++ line
  end.

Definition indent (new : list bytes) : list bytes := indent_line <$> new.

Definition path_join (root rel : string) : string := root +:+ "/" +:+ rel.

Definition stdout_of (r : proc_result) : bytes :=
  match r with
  | Exited _ out => out
  | CannotRun => []
  end.

(** The process ran and returned 0: what [check=True] lets through. *)
Definition succeeded (r : proc_result) : bool :=
  match r with
  | Exited 0 _ => true
  | _ => false
  end.

Definition is_unpack_error (e : exn) : bool :=
  match e with
  | ValueError_not_enough _ _ | ValueError_too_many _ => true
  | _ => false
  end.

Section Tool.

(** The [psql] and [black] programs, as they answer at a given moment.
    [psql] returns its standard output; [black] returns the new content
    of the file it was given.  Neither touches any other file. *)
Variable psql : nat → string → proc_result.
Variable black : nat → option bytes → proc_result.

(** [sp.run(["psql", "-AXqt", "-c", query], stdout=sp.PIPE, check=True)]
    and the [.stdout] of what it returns. *)
Definition run_psql (query : string) : M bytes :=
  λ w, let w' := World (files w) (S (clock w)) in
       match psql (clock w) query with
       | Exited 0 out => (w', Ok out)
       | Exited code _ => (w', Raise (CalledProcessError code))
       | CannotRun => (w', Raise OSError)
       end.

(** [sp.check_call(["black", "-q", fn])]: [black] sees the file, may
    rewrite it, and its return code is checked. *)
Definition check_call_black (fn : string) : M unit :=
  λ w, match black (clock w) (files w !! fn) with
       | Exited code out =>
           let files' := match files w !! fn with
                         | Some _ => <[fn := out]> (files w)
                         | None => files w
                         end in
           let w' := World files' (S (clock w)) in
           if (code =? 0)%Z then (w', Ok tt)
           else (w', Raise (CalledProcessError code))
       | CannotRun => (World (files w) (S (clock w)), Raise OSError)
       end.

(** The loop over [queries], [new] being the list built so far. *)
Fixpoint run_queries (queries : list string) (new : list bytes) : M (list bytes) :=
  match queries with
  | [] => ret new
  | query :: queries' =>
      do out <- run_psql query;
      run_queries queries' (new ++ splitlines out)
  end.

Definition update_file (fn : string) (queries : list string) : M unit :=
  do content <- read_file fn;
  let lines := splitlines content in
  do new <- run_queries queries [];
  let new := indent new in
  do ij <- unpack2 (marker_indices lines);
  let lines := slice_assign lines (ij.1 + 1) ij.2 new in
  run open_wb fn;
  run write fn (join [LF] lines);
  write fn [LF].

Definition update_python_oids (ROOT : string) : M unit :=
  let queries := [version_sql; py_types_sql; py_ranges_sql; py_multiranges_sql] in
  let fn := path_join ROOT "psycopg/psycopg/postgres.py" in
  run update_file fn queries;
  check_call_black fn.

Definition update_cython_oids (ROOT : string) : M unit :=
  let queries := [version_sql; cython_oids_sql] in
  let fn := path_join ROOT "psycopg_c/psycopg_c/_psycopg/oids.pxd" in
  update_file fn queries.

Definition main (ROOT : string) : M unit :=
  run update_python_oids ROOT;
  update_cython_oids ROOT.

(** The lines each query prints, in the order of [queries], the first
    query being run at moment [t]; and whether every one of these runs
    succeeds. *)
Fixpoint query_lines (t : nat) (queries : list string) : list (list bytes) :=
  match queries with
  | [] => []
  | query :: queries' =>
      splitlines (stdout_of (psql t query)) :: query_lines (S t) queries'
  end.

Fixpoint all_succeed (t : nat) (queries : list string) : bool :=
  match queries with
  | [] => true
  | query :: queries' => succeeded (psql t query) && all_succeed (S t) queries'
  end.

End Tool.

(** ** Vocabulary of the statements *)

(** The language of a pattern. *)
Inductive matches : regex → bytes → Prop :=
  | m_eps : matches Eps []
  | m_class p c : p c = true → matches (Class p) [c]
  | m_seq r1 r2 s1 s2 :
      matches r1 s1 → matches r2 s2 → matches (Seq r1 r2) (s1 ++ s2)
  | m_alt_l r1 r2 s : matches r1 s → matches (Alt r1 r2) s
  | m_alt_r r1 r2 s : matches r2 s → matches (Alt r1 r2) s
  | m_star_nil r : matches (Star r) []
  | m_star_cons r s1 s2 :
      matches r s1 → matches (Star r) s2 → matches (Star r) (s1 ++ s2).

Definition spaces (s : bytes) : Prop := Forall (λ c, is_space c = true) s.

(** A marker line as the specification words it: optional whitespace,
    [#], optional whitespace, [autogenerated:], at least one whitespace
    character, then [start] or [end]; anything may follow. *)
Definition marker_shape (line : bytes) : Prop :=
  ∃ ws1 ws2 ws3 tok rest,
    line = ws1 ++ b "#" ++ ws2 ++ b "autogenerated:" ++ ws3 ++ tok ++ rest
    ∧ spaces ws1 ∧ spaces ws2 ∧ spaces ws3 ∧ ws3 ≠ []
    ∧ (tok = b "start" ∨ tok = b "end").

(** A line without CR or LF in it. *)
Definition no_break (line : bytes) : Prop :=
  Forall (λ c, is_linebreak c = false) line.

(** Every line followed by one LF. *)
Definition terminated (lines : list bytes) : bytes :=
  concat ((λ l, l ++ [LF]) <$> lines).

Definition no_marker (lines : list bytes) : Prop :=
  Forall (λ l, is_marker l = false) lines.

(** [marker_indices] with the numbering started at [k]. *)
Definition marker_indices_from (k : nat) (lines : list bytes) : list nat :=
  (filter (λ p, is_marker p.2 = true) (enumerate_from k lines)).*1.

(** ** Sample inputs *)

(** A file made of the given lines, each ended by one LF. *)
Definition text (ls : list string) : bytes := terminated (b <$> ls).

(** The same lines, each ended by CR LF. *)
Definition text_crlf (ls : list string) : bytes :=
  concat ((λ l, b l ++ [CR; LF]) <$> ls).

Definition scenario_file : bytes :=
  text ["x = 1"; "# autogenerated: start"; "OLD_LINE = 0";
        "# autogenerated: end"; "y = 2"].

Definition reversed_file : bytes :=
  text ["# autogenerated: end"; "OLD_LINE = 0"; "# autogenerated: start"].

Definition crlf_file : bytes :=
  text_crlf ["x = 1"; "# autogenerated: start"; "OLD_LINE = 0";
             "# autogenerated: end"].

(** LF line ends outside of the region, CR LF inside it. *)
Definition mixed_file : bytes :=
  text ["x = 1"; "# autogenerated: start"] ++ text_crlf ["OLD_LINE = 0"]
  ++ text ["# autogenerated: end"; "y = 2"].

Definition start_only_file : bytes :=
  text ["x = 1"; "# autogenerated: start"; "OLD_LINE = 0"].

(** A [psql] that prints the two lines of the scenario for every query,
    one that prints nothing, and one whose every run after the first
    [n] exits with code 2. *)
Definition scenario_psql : nat → string → proc_result :=
  λ _ _, Exited 0 (text ["NEW_A = 1"; "NEW_B = 2"]).

Definition silent_psql : nat → string → proc_result := λ _ _, Exited 0 [].

Definition failing_psql (n : nat) : nat → string → proc_result :=
  λ t _, if bool_decide (t < n) then Exited 0 (text ["NEW_A = 1"])
         else Exited 2 [].

(** A [black] that leaves the file as it is. *)
Definition idle_black : nat → option bytes → proc_result :=
  λ _ content, Exited 0 (default [] content).

Definition on_disk (fn : string) (content : bytes) : world :=
  World {[ fn := content ]} 0.

(** Two queries, the first printing [A1], [A2] and the second [B1]. *)
Definition two_query_psql : nat → string → proc_result :=
  λ _ query, if String.eqb query "qa" then Exited 0 (text ["A1"; "A2"])
             else Exited 0 (text ["B1"]).

(** A [psql] whose output is itself a marker line. *)
Definition marker_psql : nat → string → proc_result :=
  λ _ _, Exited 0 (text ["# autogenerated: start"]).

(** A [black] that leaves the file as it is and exits with code 1. *)
Definition failing_black : nat → option bytes → proc_result :=
  λ _ content, Exited 1 (default [] content).

(** Both target files of [main], under the root [/repo]. *)
Definition two_targets : world :=
  World {[ "/repo/psycopg/psycopg/postgres.py" := scenario_file;
           "/repo/psycopg_c/psycopg_c/_psycopg/oids.pxd" := scenario_file ]} 0.

(** ** Sanity checks *)

Example splitlines_mixed :
  splitlines (b "a" ++ [CR; LF] ++ b "b" ++ [CR] ++ [LF] ++ [LF] ++ b "c")
  = [b "a"; b "b"; []; b "c"].
Proof. reflexivity. Qed.

Example splitlines_final_break : splitlines (b "a" ++ [LF]) = [b "a"].
Proof. reflexivity. Qed.

Example is_marker_plain : is_marker (b "# autogenerated: start") = true.
Proof. vm_compute. reflexivity. Qed.

Example is_marker_glued : is_marker (b "# autogenerated:start") = false.
Proof. vm_compute. reflexivity. Qed.

Example is_marker_trailing : is_marker (b "    #autogenerated:   endless") = true.
Proof. vm_compute. reflexivity. Qed.

Example scenario_of_the_specification :
  update_file scenario_psql "target" ["q"] (on_disk "target" scenario_file)
  = (World {[ "target" := text ["x = 1"; "# autogenerated: start";
                                "    NEW_A = 1"; "    NEW_B = 2";
                                "# autogenerated: end"; "y = 2"] ]} 1, Ok tt).
Proof. by vm_compute. Qed.

Example no_marker_at_all :
  update_file scenario_psql "target" ["q"] (on_disk "target" (text ["x = 1"]))
  = (World {[ "target" := text ["x = 1"] ]} 1, Raise (ValueError_not_enough 2 0)).
Proof. by vm_compute. Qed.

Example three_markers :
  update_file scenario_psql "target" ["q"]
    (on_disk "target" (text ["# autogenerated: start"; "# autogenerated: end";
                             "# autogenerated: end"]))
  = (World {[ "target" := text ["# autogenerated: start"; "# autogenerated: end";
                                "# autogenerated: end"] ]} 1,
     Raise (ValueError_too_many 2)).
Proof. by vm_compute. Qed.

Example missing_file :
  update_file scenario_psql "target" ["q"] (World ∅ 0)
  = (World ∅ 0, Raise (FileNotFoundError "target")).
Proof. by vm_compute. Qed.

(** ** The matcher against the language of the pattern *)

Lemma nullable_matches r : nullable r = true ↔ matches r [].
Proof.
  induction r as [| |p|r1 IH1 r2 IH2|r1 IH1 r2 IH2|r IH]; simpl.
  - split; [done | inversion 1].
  - split; [constructor | done].
  - split; [done | inversion 1].
  - rewrite andb_true_iff, IH1, IH2. split.
    + intros [H1 H2]. by apply (m_seq _ _ [] []).
    + inversion 1 as [| |? ? s1 s2 H1 H2 E1 E| | | |]; subst.
      apply app_eq_nil in E as [-> ->]. by split.
  - rewrite orb_true_iff, IH1, IH2. split.
    + intros [H|H]; [by apply m_alt_l | by apply m_alt_r].
    + inversion 1; subst; auto.
  - split; [constructor | done].
Qed.

Lemma deriv_sound c r s : matches (deriv c r) s → matches r (c :: s).
Proof.
  revert s. induction r as [| |p|r1 IH1 r2 IH2|r1 IH1 r2 IH2|r IH];
    simpl; intros s H.
  - inversion H.
  - inversion H.
  - destruct (p c) eqn:Hp; inversion H; subst. by constructor.
  - destruct (nullable r1) eqn:Hn.
    + inversion H as [| | | ? ? ? H'| ? ? ? H'| |]; subst.
      * inversion H' as [| |? ? s1 s2 H1 H2| | | |]; subst.
        apply (m_seq _ _ (c :: s1) s2); auto.
      * apply (m_seq _ _ [] (c :: s)); auto. by apply nullable_matches.
    + inversion H as [| |? ? s1 s2 H1 H2| | | |]; subst.
      apply (m_seq _ _ (c :: s1) s2); auto.
  - inversion H; subst; [apply m_alt_l | apply m_alt_r]; auto.
  - inversion H as [| |? ? s1 s2 H1 H2| | | |]; subst.
    apply (m_star_cons _ (c :: s1) s2); auto.
Qed.

Lemma deriv_complete c r s : matches r (c :: s) → matches (deriv c r) s.
Proof.
  intros H. remember (c :: s) as cs eqn:E. revert s E.
  induction H as [|p c' Hp|r1 r2 s1 s2 H1 IH1 H2 IH2|r1 r2 s' H IH
                 |r1 r2 s' H IH| |r s1 s2 H1 IH1 H2 IH2]; intros s E; simpl.
  - done.
  - injection E as -> <-. rewrite Hp. constructor.
  - destruct s1 as [|c1 s1'].
    + simpl in E. subst s2.
      assert (nullable r1 = true) as -> by by apply nullable_matches.
      apply m_alt_r. by apply IH2.
    + injection E as -> <-.
      destruct (nullable r1); [apply m_alt_l|]; by apply m_seq; auto.
  - apply m_alt_l. auto.
  - apply m_alt_r. auto.
  - done.
  - destruct s1 as [|c1 s1'].
    + simpl in E. by apply IH2.
    + injection E as -> <-. apply m_seq; auto.
Qed.

Lemma re_match_spec r s :
  re_match r s = true ↔ ∃ p q, s = p ++ q ∧ matches r p.
Proof.
  revert r. induction s as [|c s IH]; intros r; simpl.
  - rewrite orb_false_r, nullable_matches. split.
    + intros H. by exists [], [].
    + intros (p & q & E & H). symmetry in E.
      apply app_eq_nil in E as [-> _]. done.
  - rewrite orb_true_iff, nullable_matches, IH. split.
    + intros [H|(p & q & -> & H)].
      * by exists [], (c :: s).
      * exists (c :: p), q. split; [done | by apply deriv_sound].
    + intros ([|c' p] & q & E & H); [by left | right].
      injection E as <- ->. exists p, q. split; [done | by apply deriv_complete].
Qed.

Lemma matches_star_ws s : matches (Star ws) s ↔ spaces s.
Proof.
  split.
  - intros H. remember (Star ws) as r eqn:E.
    induction H as [| | | | | |r s1 s2 H1 _ H2 IH2]; try discriminate.
    + constructor.
    + injection E as ->. unfold ws in H1. inversion H1; subst.
      constructor; [done | by apply IH2].
  - induction 1 as [|c s Hc _ IH]; [constructor|].
    apply (m_star_cons _ [c] s); [by constructor | done].
Qed.

Lemma matches_plus_ws s : matches (Plus ws) s ↔ spaces s ∧ s ≠ [].
Proof.
  unfold Plus. split.
  - inversion 1 as [| |? ? s1 s2 H1 H2| | | |]; subst.
    unfold ws in H1. inversion H1; subst. apply matches_star_ws in H2.
    split; [by constructor | done].
  - intros [Hs Hne]. destruct Hs as [|c s Hc Hs]; [done|].
    apply (m_seq _ _ [c] s); [by constructor | by apply matches_star_ws].
Qed.

Lemma matches_Lit l s : matches (Lit l) s ↔ s = l.
Proof.
  revert s. induction l as [|c l IH]; intros s; simpl.
  - split; [by inversion 1 | intros ->; constructor].
  - split.
    + inversion 1 as [| |? ? s1 s2 H1 H2| | | |]; subst.
      inversion H1 as [|? ? Hc| | | | |]; subst.
      apply Byte.byte_dec_bl in Hc as ->. apply IH in H2 as ->. done.
    + intros ->. apply (m_seq _ _ [c] l).
      * constructor. by apply Byte.byte_dec_lb.
      * by apply IH.
Qed.

Lemma matches_marker_head tail p :
  matches (marker_head tail) p ↔
  ∃ ws1 ws2 ws3 t,
    p = ws1 ++ b "#" ++ ws2 ++ b "autogenerated:" ++ ws3 ++ t
    ∧ spaces ws1 ∧ spaces ws2 ∧ spaces ws3 ∧ ws3 ≠ [] ∧ matches tail t.
Proof.
  unfold marker_head. split.
  - intros H.
    inversion H as [| |? ? ws1 s1 Hw1 H1| | | |]; subst; clear H.
    inversion H1 as [| |? ? h s2 Hh H2| | | |]; subst; clear H1.
    inversion H2 as [| |? ? ws2 s3 Hw2 H3| | | |]; subst; clear H2.
    inversion H3 as [| |? ? a s4 Ha H4| | | |]; subst; clear H3.
    inversion H4 as [| |? ? ws3 t Hw3 Ht| | | |]; subst; clear H4.
    apply matches_star_ws in Hw1, Hw2. apply matches_plus_ws in Hw3 as [Hw3 Hne].
    apply (matches_Lit (b "#")) in Hh as ->.
    apply (matches_Lit (b "autogenerated:")) in Ha as ->.
    by exists ws1, ws2, ws3, t.
  - intros (ws1 & ws2 & ws3 & t & -> & H1 & H2 & H3 & Hne & Ht).
    repeat apply m_seq; try by apply matches_Lit.
    + by apply matches_star_ws.
    + by apply matches_star_ws.
    + by apply matches_plus_ws.
    + done.
Qed.

(** ** Lines, serialization and marker positions *)

Lemma splitlines_no_break s : Forall no_break (splitlines s).
Proof.
  remember (length s) as n eqn:En.
  revert s En. induction (lt_wf n) as [n _ IH]. intros s ->.
  destruct s as [|c rest]; simpl; [constructor|].
  destruct (is_LF c) eqn:HLF.
  { constructor; [constructor|]. eapply IH; [|done]. simpl. lia. }
  destruct (is_CR c) eqn:HCR.
  { destruct rest as [|c' rest']; [repeat constructor|].
    destruct (is_LF c').
    - constructor; [constructor|]. eapply IH; [|done]. simpl. lia.
    - constructor; [constructor|]. eapply IH; [|done]. simpl. lia. }
  assert (Forall no_break (splitlines rest)) as Hrest.
  { eapply IH; [|done]. simpl. lia. }
  destruct (splitlines rest) as [|line more].
  - repeat constructor. unfold is_linebreak. by rewrite HLF, HCR.
  - inversion Hrest; subst. constructor; [|done].
    constructor; [|done]. unfold is_linebreak. by rewrite HLF, HCR.
Qed.

Lemma splitlines_line line rest :
  no_break line → splitlines (line ++ LF :: rest) = line :: splitlines rest.
Proof.
  induction 1 as [|c line Hc _ IH]; simpl; [done|].
  unfold is_linebreak in Hc. apply orb_false_iff in Hc as [-> ->].
  by rewrite IH.
Qed.

Lemma splitlines_terminated lines :
  Forall no_break lines → splitlines (terminated lines) = lines.
Proof.
  induction 1 as [|line lines Hl _ IH]; [done|].
  unfold terminated. simpl. rewrite <- app_assoc. simpl.
  rewrite splitlines_line by done. f_equal. exact IH.
Qed.

Lemma join_terminated lines :
  lines ≠ [] → join [LF] lines ++ [LF] = terminated lines.
Proof.
  induction lines as [|line lines IH]; [done|]. intros _.
  destruct lines as [|line' lines'].
  - unfold terminated. simpl. by rewrite app_nil_r.
  - change (join [LF] (line :: line' :: lines'))
      with (line ++ [LF] ++ join [LF] (line' :: lines')).
    rewrite <- !app_assoc, IH by done. unfold terminated. simpl.
    by rewrite <- !app_assoc.
Qed.

Lemma indent_no_break new : Forall no_break new → Forall no_break (indent new).
Proof.
  unfold indent. intros H. apply Forall_fmap.
  eapply Forall_impl; [exact H|]. intros [|c line] Hl; simpl; [done|].
  repeat (constructor; [done|]). done.
Qed.

Lemma marker_indices_from_cons k x l :
  marker_indices_from k (x :: l) =
  if is_marker x then k :: marker_indices_from (S k) l
  else marker_indices_from (S k) l.
Proof.
  unfold marker_indices_from. simpl. rewrite filter_cons. simpl.
  destruct (is_marker x); by case_decide.
Qed.

Lemma marker_indices_from_app k l1 l2 :
  marker_indices_from k (l1 ++ l2) =
  marker_indices_from k l1 ++ marker_indices_from (k + length l1) l2.
Proof.
  revert k. induction l1 as [|x l1 IH]; intros k.
  - simpl. by rewrite Nat.add_0_r.
  - simpl. rewrite !marker_indices_from_cons, IH.
    replace (S k + length l1) with (k + S (length l1)) by lia.
    by destruct (is_marker x).
Qed.

Lemma marker_indices_from_none k l :
  marker_indices_from k l = [] ↔ no_marker l.
Proof.
  revert k. induction l as [|x l IH]; intros k.
  - split; [constructor | done].
  - rewrite marker_indices_from_cons. destruct (is_marker x) eqn:Hx.
    + split; [done|]. inversion 1; congruence.
    + rewrite IH. split; [by constructor | by inversion 1].
Qed.

Lemma marker_indices_from_first k l i rest :
  marker_indices_from k l = i :: rest →
  ∃ pre m post,
    l = pre ++ m :: post ∧ no_marker pre ∧ is_marker m = true
    ∧ i = k + length pre ∧ marker_indices_from (S i) post = rest.
Proof.
  revert k. induction l as [|x l IH]; intros k; [done|].
  rewrite marker_indices_from_cons. destruct (is_marker x) eqn:Hx.
  - intros [= <- <-]. exists [], x, l. simpl.
    rewrite Nat.add_0_r. repeat split; [constructor | done].
  - intros H. apply IH in H as (pre & m & post & -> & Hpre & Hm & -> & Hrest).
    exists (x :: pre), m, post. simpl.
    replace (k + S (length pre)) with (S k + length pre) by lia.
    repeat split; [by constructor | done | done].
Qed.

(** Exactly two matches: the shape of the file. *)
Lemma marker_indices_two lines i j :
  marker_indices lines = [i; j] ↔
  ∃ pre m1 mid m2 post,
    lines = pre ++ m1 :: mid ++ m2 :: post
    ∧ no_marker pre ∧ no_marker mid ∧ no_marker post
    ∧ is_marker m1 = true ∧ is_marker m2 = true
    ∧ i = length pre ∧ j = length pre + 1 + length mid.
Proof.
  change (marker_indices lines) with (marker_indices_from 0 lines). split.
  - intros H.
    apply marker_indices_from_first in H
      as (pre & m1 & l' & -> & Hpre & Hm1 & -> & H).
    apply marker_indices_from_first in H
      as (mid & m2 & post & -> & Hmid & Hm2 & -> & H).
    apply marker_indices_from_none in H.
    exists pre, m1, mid, m2, post. simpl. repeat split; try done. lia.
  - intros (pre & m1 & mid & m2 & post & -> & Hpre & Hmid & Hpost
            & Hm1 & Hm2 & -> & ->).
    rewrite marker_indices_from_app, marker_indices_from_cons, Hm1.
    rewrite marker_indices_from_app, marker_indices_from_cons, Hm2.
    apply (marker_indices_from_none 0) in Hpre as ->.
    apply (marker_indices_from_none (S (0 + length pre))) in Hmid as ->.
    apply (marker_indices_from_none (S (S (0 + length pre) + length mid)))
      in Hpost as ->.
    simpl. f_equal. f_equal. lia.
Qed.

(** ** Runs of the tool *)

Section ToolFacts.

Variable psql : nat → string → proc_result.

Lemma run_psql_ok query w :
  succeeded (psql (clock w) query) = true →
  run_psql psql query w
  = (World (files w) (S (clock w)), Ok (stdout_of (psql (clock w) query))).
Proof.
  unfold run_psql. destruct (psql (clock w) query) as [code out|]; [|done].
  by destruct code.
Qed.

Lemma run_psql_fail query w :
  succeeded (psql (clock w) query) = false →
  ∃ e, run_psql psql query w = (World (files w) (S (clock w)), Raise e).
Proof.
  unfold run_psql. destruct (psql (clock w) query) as [code out|]; [|by eauto].
  destruct code; [done | by eauto | by eauto].
Qed.

Lemma run_queries_ok queries new w :
  all_succeed psql (clock w) queries = true →
  run_queries psql queries new w
  = (World (files w) (clock w + length queries),
     Ok (new ++ concat (query_lines psql (clock w) queries))).
Proof.
  revert new w. induction queries as [|q qs IH]; intros new w; simpl.
  - intros _. unfold ret. rewrite Nat.add_0_r, app_nil_r. by destruct w.
  - intros [Hq Hqs]%andb_true_iff. unfold bind.
    rewrite run_psql_ok by done. rewrite IH by done. simpl.
    rewrite <- app_assoc. do 2 f_equal. lia.
Qed.

Lemma run_queries_fail queries new w k q :
  queries !! k = Some q →
  succeeded (psql (clock w + k) q) = false →
  ∃ e w', run_queries psql queries new w = (w', Raise e)
          ∧ files w' = files w ∧ clock w < clock w' ≤ clock w + S k.
Proof.
  revert new w k. induction queries as [|q' qs IH]; intros new w k; [done|].
  simpl. unfold bind. destruct (succeeded (psql (clock w) q')) eqn:Hq'.
  - rewrite run_psql_ok by done. destruct k as [|k]; simpl.
    + intros [= ->]. rewrite Nat.add_0_r. congruence.
    + intros Hk Hf.
      destruct (IH (new ++ splitlines (stdout_of (psql (clock w) q')))
                   (World (files w) (S (clock w))) k Hk) as (e & w' & -> & Hw' & Hc).
      { simpl. by replace (S (clock w + k)) with (clock w + S k) by lia. }
      exists e, w'. simpl in Hc. repeat split; [done | lia | lia].
  - intros _ _. destruct (run_psql_fail q' w Hq') as [e ->].
    exists e, (World (files w) (S (clock w))). simpl. repeat split; lia.
Qed.

Lemma run_queries_files queries new w :
  files (run_queries psql queries new w).1 = files w.
Proof.
  revert new w. induction queries as [|q qs IH]; intros new w; simpl; [done|].
  unfold bind. destruct (succeeded (psql (clock w) q)) eqn:Hq.
  - rewrite run_psql_ok by done. by rewrite IH.
  - by destruct (run_psql_fail q w Hq) as [e ->].
Qed.

Lemma run_queries_inv queries new w w' new' :
  run_queries psql queries new w = (w', Ok new') →
  all_succeed psql (clock w) queries = true.
Proof.
  revert new w. induction queries as [|q qs IH]; intros new w; simpl; [done|].
  unfold bind. destruct (succeeded (psql (clock w) q)) eqn:Hq.
  - rewrite run_psql_ok by done. intros H. by apply IH in H.
  - by destruct (run_psql_fail q w Hq) as [e ->].
Qed.

Lemma marker_indices_two_bounds lines i j :
  marker_indices lines = [i; j] → i < j < length lines.
Proof.
  intros (pre & m1 & mid & m2 & post & -> & _ & _ & _ & _ & _ & -> & ->)
    %marker_indices_two.
  rewrite !length_app. simpl. rewrite !length_app. simpl. lia.
Qed.

Lemma slice_assign_take_drop {A} (lines new : list A) i j :
  i < j ≤ length lines →
  slice_assign lines (i + 1) j new = take (S i) lines ++ new ++ drop j lines.
Proof.
  intros H. unfold slice_assign.
  replace ((i + 1) `min` length lines) with (S i) by lia.
  by replace (S i `max` (j `min` length lines)) with j by lia.
Qed.

Lemma update_file_missing fn queries w :
  files w !! fn = None →
  update_file psql fn queries w = (w, Raise (FileNotFoundError fn)).
Proof. intros H. unfold update_file, bind, read_file. by rewrite H. Qed.

Lemma update_file_query_error fn queries w content w1 e :
  files w !! fn = Some content →
  run_queries psql queries [] w = (w1, Raise e) →
  update_file psql fn queries w = (w1, Raise e).
Proof.
  intros Hf Hq. unfold update_file, bind, read_file. by rewrite Hf, Hq.
Qed.

Lemma update_file_unpack_error fn queries w content w1 new :
  files w !! fn = Some content →
  run_queries psql queries [] w = (w1, Ok new) →
  length (marker_indices (splitlines content)) ≠ 2 →
  ∃ e, update_file psql fn queries w = (w1, Raise e) ∧ is_unpack_error e = true.
Proof.
  intros Hf Hq Hn. unfold update_file, bind, read_file. rewrite Hf, Hq.
  destruct (marker_indices (splitlines content)) as [|i [|j [|k l]]];
    simpl in *; unfold raise; by eauto.
Qed.

Lemma update_file_spliced fn queries w content w1 new i j :
  files w !! fn = Some content →
  run_queries psql queries [] w = (w1, Ok new) →
  marker_indices (splitlines content) = [i; j] →
  update_file psql fn queries w
  = (World (<[fn := terminated (take (S i) (splitlines content)
                                ++ indent new
                                ++ drop j (splitlines content))]> (files w))
           (clock w1),
     Ok tt).
Proof.
  intros Hf Hq Hm. unfold update_file, bind, read_file. rewrite Hf, Hq, Hm.
  pose proof (run_queries_files queries [] w) as Hfiles.
  rewrite Hq in Hfiles. simpl in Hfiles.
  pose proof (marker_indices_two_bounds _ _ _ Hm) as Hb.
  simpl. unfold open_wb, write. simpl.
  rewrite lookup_insert_eq. simpl. rewrite lookup_insert_eq. simpl.
  rewrite !insert_insert_eq, Hfiles.
  rewrite slice_assign_take_drop by lia.
  rewrite join_terminated; [done|].
  destruct (splitlines content); simpl in *; [lia | done].
Qed.

Lemma update_file_ok_inv fn queries w w' :
  update_file psql fn queries w = (w', Ok tt) →
  ∃ content new i j,
    files w !! fn = Some content
    ∧ run_queries psql queries [] w
      = (World (files w) (clock w + length queries), Ok new)
    ∧ new = concat (query_lines psql (clock w) queries)
    ∧ all_succeed psql (clock w) queries = true
    ∧ marker_indices (splitlines content) = [i; j].
Proof.
  intros H. destruct (files w !! fn) as [content|] eqn:Hf.
  2:{ rewrite update_file_missing in H by done. done. }
  destruct (run_queries psql queries [] w) as [w1 [new|e]] eqn:Hq.
  2:{ erewrite update_file_query_error in H by done. done. }
  pose proof (run_queries_inv _ _ _ _ _ Hq) as Hall.
  rewrite run_queries_ok in Hq by done. injection Hq as <- <-.
  exists content, (concat (query_lines psql (clock w) queries)).
  destruct (decide (length (marker_indices (splitlines content)) = 2)) as [Hl|Hl].
  - destruct (marker_indices (splitlines content)) as [|i [|j [|k l]]] eqn:Hm;
      try done.
    by exists i, j.
  - destruct (update_file_unpack_error fn queries w content _ _ Hf
                (run_queries_ok queries [] w Hall) Hl) as (e & He & _).
    congruence.
Qed.

End ToolFacts.

Lemma terminated_app l1 l2 : terminated (l1 ++ l2) = terminated l1 ++ terminated l2.
Proof. unfold terminated. by rewrite fmap_app, concat_app. Qed.

Lemma terminated_no_CR lines : Forall no_break lines → CR ∉ terminated lines.
Proof.
  induction 1 as [|line lines Hl _ IH]; [by apply not_elem_of_nil|].
  unfold terminated. simpl. rewrite !elem_of_app. intros [[Hin|Hin]|Hin].
  - eapply Forall_forall in Hl; [|exact Hin]. done.
  - apply list_elem_of_singleton in Hin. done.
  - by apply IH.
Qed.

Lemma terminated_last lines : lines ≠ [] → last (terminated lines) = Some LF.
Proof.
  intros Hne. destruct (exists_last Hne) as (front & line & ->).
  rewrite terminated_app. unfold terminated at 2. simpl.
  rewrite app_nil_r, !app_assoc. apply last_snoc.
Qed.

Section ToolLines.

Variable psql : nat → string → proc_result.

Lemma query_lines_no_break t queries :
  Forall no_break (concat (query_lines psql t queries)).
Proof.
  revert t. induction queries as [|q qs IH]; intros t; simpl; [constructor|].
  apply Forall_app. split; [apply splitlines_no_break | apply IH].
Qed.

Lemma query_lines_length t queries :
  length (query_lines psql t queries) = length queries.
Proof. revert t. induction queries as [|q qs IH]; intros t; simpl; auto. Qed.

Lemma query_lines_lookup t queries k q :
  queries !! k = Some q →
  query_lines psql t queries !! k
  = Some (splitlines (stdout_of (psql (t + k) q))).
Proof.
  revert t k. induction queries as [|q' qs IH]; intros t k; [done|].
  destruct k as [|k]; simpl.
  - intros [= ->]. by rewrite Nat.add_0_r.
  - intros Hk. rewrite (IH (S t) k Hk). do 4 f_equal. lia.
Qed.

Lemma spliced_no_break content t queries i j :
  Forall no_break (take (S i) (splitlines content)
                   ++ indent (concat (query_lines psql t queries))
                   ++ drop j (splitlines content)).
Proof.
  pose proof (splitlines_no_break content) as H.
  rewrite !Forall_app. split; [by apply Forall_take|].
  split; [|by apply Forall_drop].
  apply indent_no_break, query_lines_no_break.
Qed.

Lemma update_file_error_files fn queries w w' e :
  update_file psql fn queries w = (w', Raise e) → files w' = files w.
Proof.
  intros H. destruct (files w !! fn) as [content|] eqn:Hf.
  2:{ rewrite update_file_missing in H by done. by injection H as <- _. }
  pose proof (run_queries_files psql queries [] w) as Hfiles.
  destruct (run_queries psql queries [] w) as [w1 [new|e1]] eqn:Hq.
  2:{ erewrite update_file_query_error in H by done. by injection H as <- _. }
  destruct (decide (length (marker_indices (splitlines content)) = 2)) as [Hl|Hl].
  - destruct (marker_indices (splitlines content)) as [|i [|j [|k l]]] eqn:Hm;
      try done.
    erewrite update_file_spliced in H by done. done.
  - destruct (update_file_unpack_error psql fn queries w content _ _ Hf Hq Hl)
      as (e' & He & _).
    rewrite He in H. by injection H as <- _.
Qed.

(** A successful run with the queries answering as given. *)
Lemma update_file_success fn queries w content i j :
  files w !! fn = Some content →
  all_succeed psql (clock w) queries = true →
  marker_indices (splitlines content) = [i; j] →
  update_file psql fn queries w
  = (World (<[fn := terminated
                      (take (S i) (splitlines content)
                       ++ indent (concat (query_lines psql (clock w) queries))
                       ++ drop j (splitlines content))]> (files w))
           (clock w + length queries),
     Ok tt).
Proof.
  intros Hf Hall Hm.
  by rewrite (update_file_spliced psql fn queries w content _ _ i j Hf
                (run_queries_ok psql queries [] w Hall) Hm).
Qed.

End ToolLines.

Lemma take_drop_markers {A} (pre mid post : list A) m1 m2 :
  take (S (length pre)) (pre ++ m1 :: mid ++ m2 :: post) = pre ++ [m1]
  ∧ drop (length pre + 1 + length mid) (pre ++ m1 :: mid ++ m2 :: post)
    = m2 :: post.
Proof.
  split.
  - replace (pre ++ m1 :: mid ++ m2 :: post)
      with ((pre ++ [m1]) ++ mid ++ m2 :: post) by (by rewrite <- app_assoc).
    replace (S (length pre)) with (length (pre ++ [m1]))
      by (rewrite length_app; simpl; lia).
    apply take_app_length.
  - replace (pre ++ m1 :: mid ++ m2 :: post)
      with ((pre ++ m1 :: mid) ++ m2 :: post)
      by (by rewrite <- app_assoc).
    replace (length pre + 1 + length mid) with (length (pre ++ m1 :: mid))
      by (rewrite length_app; simpl; lia).
    apply drop_app_length.
Qed.

(** The marker lines of a file whose region was replaced by [block]. *)
Lemma marker_indices_replaced pre m1 block m2 post :
  no_marker pre → no_marker post →
  is_marker m1 = true → is_marker m2 = true →
  marker_indices (pre ++ m1 :: block ++ m2 :: post)
  = length pre :: marker_indices_from (S (length pre)) block
    ++ [S (length pre) + length block].
Proof.
  intros Hpre Hpost Hm1 Hm2.
  change (marker_indices ?l) with (marker_indices_from 0 l).
  rewrite marker_indices_from_app, marker_indices_from_cons, Hm1.
  rewrite marker_indices_from_app, marker_indices_from_cons, Hm2.
  apply (marker_indices_from_none 0) in Hpre as ->.
  apply (marker_indices_from_none
           (S (S (0 + length pre) + length block))) in Hpost as ->.
  done.
Qed.

(** Splicing the same block again gives the same lines back. *)
Lemma splice_again lines i j block i2 j2 :
  marker_indices lines = [i; j] →
  marker_indices (take (S i) lines ++ block ++ drop j lines) = [i2; j2] →
  take (S i2) (take (S i) lines ++ block ++ drop j lines)
  ++ block ++ drop j2 (take (S i) lines ++ block ++ drop j lines)
  = take (S i) lines ++ block ++ drop j lines.
Proof.
  intros (pre & m1 & mid & m2 & post & -> & Hpre & _ & Hpost & Hm1 & Hm2
          & -> & ->)%marker_indices_two.
  destruct (take_drop_markers pre mid post m1 m2) as [-> ->].
  rewrite <- app_assoc. simpl.
  rewrite marker_indices_replaced by done.
  intros [= <- H].
  destruct (marker_indices_from (S (length pre)) block) as [|x [|y l]];
    simplify_eq/=.
  destruct (take_drop_markers pre block post m1 m2) as [-> Hd].
  replace (S (length pre + length block)) with (length pre + 1 + length block)
    by lia.
  rewrite Hd. by rewrite <- app_assoc.
Qed.

Lemma marker_indices_after_splice lines i j block :
  marker_indices lines = [i; j] → no_marker block →
  marker_indices (take (S i) lines ++ block ++ drop j lines)
  = [i; S i + length block].
Proof.
  intros (pre & m1 & mid & m2 & post & -> & Hpre & _ & Hpost & Hm1 & Hm2
          & -> & ->)%marker_indices_two Hblock.
  destruct (take_drop_markers pre mid post m1 m2) as [-> ->].
  rewrite <- app_assoc. simpl. rewrite marker_indices_replaced by done.
  by apply (marker_indices_from_none (S (length pre))) in Hblock as ->.
Qed.

(** ** The formatter *)

(** C6: the formatting step keeps the number and the order of the lines;
    a line that is not empty gets exactly four spaces in front of it,
    and an empty line stays empty. *)
Theorem C6_indent_each_line (new : list bytes) :
  length (indent new) = length new
  ∧ (∀ k line, new !! k = Some line → line ≠ [] →
       indent new !! k = Some (replicate 4 x20 ++ line))
  ∧ (∀ k, new !! k = Some [] → indent new !! k = Some []).
Proof.
  unfold indent. split; [apply length_fmap|]. split.
  - intros k line Hk Hne. rewrite list_lookup_fmap, Hk. simpl.
    by destruct line.
  - intros k Hk. by rewrite list_lookup_fmap, Hk.
Qed.

Lemma C6_indent_each_line_witness :
  indent [b "NEW_A = 1"; []; b " x"] = [b "    NEW_A = 1"; []; b "     x"]
  ∧ indent [b "NEW_A = 1"; []; b " x"] !! 0
    = Some (replicate 4 x20 ++ b "NEW_A = 1")
  ∧ indent [b "NEW_A = 1"; []; b " x"] !! 1 = Some [].
Proof.
  split; [reflexivity|].
  destruct (C6_indent_each_line [b "NEW_A = 1"; []; b " x"]) as (_ & H1 & H2).
  split; [apply H1; [reflexivity | discriminate] | apply H2; reflexivity].
Defined.

(** ** The marker pattern *)

Lemma marker_shape_iff line :
  marker_shape line ↔ ∃ p q, line = p ++ q ∧ matches marker_re p.
Proof.
  unfold marker_shape, marker_re. split.
  - intros (ws1 & ws2 & ws3 & tok & rest & -> & H1 & H2 & H3 & Hne & Htok).
    exists (ws1 ++ b "#" ++ ws2 ++ b "autogenerated:" ++ ws3 ++ tok), rest.
    split; [by rewrite <- !app_assoc|].
    apply matches_marker_head. exists ws1, ws2, ws3, tok.
    repeat split; try done.
    destruct Htok as [-> | ->];
      [apply m_alt_l | apply m_alt_r]; by apply matches_Lit.
  - intros (p & q & -> & (ws1 & ws2 & ws3 & tok & -> & H1 & H2 & H3 & Hne & Htok)
                          %matches_marker_head).
    exists ws1, ws2, ws3, tok, q. rewrite <- !app_assoc.
    repeat split; try done.
    inversion Htok as [| | |? ? ? Ht|? ? ? Ht| |]; subst.
    + left. by apply (matches_Lit (b "start")).
    + right. by apply (matches_Lit (b "end")).
Qed.

(** C10: a line is a marker exactly when it starts with optional
    whitespace, [#], optional whitespace, [autogenerated:], at least one
    whitespace character and then [start] or [end]; a line with nothing
    between the colon and [start] is not one, and indenting a marker
    line by any whitespace keeps it one. *)
Theorem C10_marker_lines :
  (∀ line, is_marker line = true ↔ marker_shape line)
  ∧ is_marker (b "# autogenerated:start") = false
  ∧ (∀ ind line, spaces ind → is_marker line = true →
       is_marker (ind ++ line) = true).
Proof.
  assert (∀ line, is_marker line = true ↔ marker_shape line) as Hiff.
  { intros line. unfold is_marker. by rewrite re_match_spec, marker_shape_iff. }
  split; [exact Hiff|]. split; [by vm_compute|].
  intros ind line Hind Hm. apply Hiff. apply Hiff in Hm
    as (ws1 & ws2 & ws3 & tok & rest & -> & H1 & H2 & H3 & Hne & Htok).
  exists (ind ++ ws1), ws2, ws3, tok, rest. rewrite <- app_assoc.
  repeat split; try done. by apply Forall_app.
Qed.

Lemma C10_marker_lines_witness :
  spaces (b "  ") ∧ is_marker (b "# autogenerated: end") = true
  ∧ is_marker (b "  " ++ b "# autogenerated: end") = true
  ∧ marker_shape (b "#autogenerated:  start here").
Proof.
  assert (spaces (b "  ")) as Hs by (repeat constructor).
  assert (is_marker (b "# autogenerated: end") = true) as Hm by reflexivity.
  destruct C10_marker_lines as (Hiff & _ & Hind).
  split; [exact Hs|]. split; [exact Hm|]. split.
  - exact (Hind (b "  ") (b "# autogenerated: end") Hs Hm).
  - apply Hiff. reflexivity.
Defined.

(** ** The splicer *)

(** C5: with exactly two marker lines, at [i] and [j], and every query
    succeeding, [update_file] writes the lines up to and including line
    [i], then the indented replacement, then line [j] and the lines after
    it, each line followed by one LF (so the file ends with an LF); with
    an empty replacement the two marker lines are adjacent. *)
Theorem C5_lines_between_markers_replaced
    (psql : nat → string → proc_result) fn queries w content i j :
  files w !! fn = Some content →
  all_succeed psql (clock w) queries = true →
  marker_indices (splitlines content) = [i; j] →
  let lines := splitlines content in
  let new := indent (concat (query_lines psql (clock w) queries)) in
  let lines' := take (S i) lines ++ new ++ drop j lines in
  update_file psql fn queries w
  = (World (<[fn := join [LF] lines' ++ [LF]]> (files w))
           (clock w + length queries), Ok tt)
  ∧ join [LF] lines' ++ [LF] = concat ((λ l, l ++ [LF]) <$> lines')
  ∧ take (S i) lines' = take (S i) lines
  ∧ take (length new) (drop (S i) lines') = new
  ∧ drop (S i + length new) lines' = drop j lines
  ∧ lines' !! i = lines !! i
  ∧ lines' !! (S i + length new) = lines !! j
  ∧ (new = [] → lines' !! S i = lines !! j).
Proof.
  intros Hf Hall Hm lines new lines'.
  pose proof (marker_indices_two_bounds _ _ _ Hm) as Hb. fold lines in Hb.
  assert (length (take (S i) lines) = S i) as Hlen by (rewrite length_take; lia).
  assert (lines' ≠ []) as Hne.
  { unfold lines'. destruct lines; simpl in *; [lia | done]. }
  assert (lines' !! (S i + length new) = lines !! j) as Hj.
  { unfold lines'. rewrite lookup_app_r by lia.
    rewrite Hlen, lookup_app_r by lia.
    replace (S i + length new - S i - length new) with 0 by lia.
    by rewrite lookup_drop, Nat.add_0_r. }
  split.
  { rewrite (update_file_success psql fn queries w content i j Hf Hall Hm).
    fold lines new lines'. by rewrite join_terminated. }
  split; [by apply join_terminated|].
  split.
  { unfold lines'. rewrite take_app_le by lia. apply take_ge. lia. }
  split.
  { unfold lines'. rewrite drop_app_ge by lia. rewrite Hlen, Nat.sub_diag.
    simpl. apply take_app_length. }
  split.
  { unfold lines'. rewrite app_assoc, drop_app_ge by (rewrite length_app; lia).
    rewrite length_app, Hlen, Nat.sub_diag. done. }
  split.
  { unfold lines'. rewrite lookup_app_l by lia. apply lookup_take_lt. lia. }
  split; [exact Hj|].
  intros Hnew. rewrite Hnew in Hj. simpl in Hj. by rewrite Nat.add_0_r in Hj.
Qed.

Lemma C5_lines_between_markers_replaced_witness :
  update_file scenario_psql "target" ["q"] (on_disk "target" scenario_file)
  = (World {[ "target" := text ["x = 1"; "# autogenerated: start";
                                "    NEW_A = 1"; "    NEW_B = 2";
                                "# autogenerated: end"; "y = 2"] ]} 1, Ok tt)
  ∧ update_file silent_psql "target" ["q"] (on_disk "target" scenario_file)
    = (World {[ "target" := text ["x = 1"; "# autogenerated: start";
                                  "# autogenerated: end"; "y = 2"] ]} 1, Ok tt).
Proof.
  split.
  - destruct (C5_lines_between_markers_replaced scenario_psql "target" ["q"]
                (on_disk "target" scenario_file) scenario_file 1 3)
      as (H & _); [reflexivity | reflexivity | reflexivity |].
    rewrite H. reflexivity.
  - destruct (C5_lines_between_markers_replaced silent_psql "target" ["q"]
                (on_disk "target" scenario_file) scenario_file 1 3)
      as (H & _); [reflexivity | reflexivity | reflexivity |].
    rewrite H. reflexivity.
Defined.

(** C7: the block put between the markers is the indented
    concatenation of what the queries printed, query after query in the
    order of [queries], the lines of each query in the order printed. *)
Theorem C7_block_follows_query_order
    (psql : nat → string → proc_result) fn queries w content i j :
  files w !! fn = Some content →
  all_succeed psql (clock w) queries = true →
  marker_indices (splitlines content) = [i; j] →
  let per_query := query_lines psql (clock w) queries in
  length per_query = length queries
  ∧ (∀ k query, queries !! k = Some query →
       per_query !! k
       = Some (splitlines (stdout_of (psql (clock w + k) query))))
  ∧ run_queries psql queries [] w
    = (World (files w) (clock w + length queries), Ok (concat per_query))
  ∧ ∃ w' written,
      update_file psql fn queries w = (w', Ok tt)
      ∧ files w' !! fn = Some written
      ∧ take (length (concat per_query)) (drop (S i) (splitlines written))
        = indent (concat per_query).
Proof.
  intros Hf Hall Hm per_query.
  split; [apply query_lines_length|].
  split; [intros k query; apply query_lines_lookup|].
  split; [by rewrite run_queries_ok|].
  eexists _, _. split; [by apply update_file_success|].
  simpl. split; [apply lookup_insert_eq|].
  rewrite splitlines_terminated by apply spliced_no_break.
  pose proof (marker_indices_two_bounds _ _ _ Hm) as Hb.
  rewrite drop_app_ge by (rewrite length_take; lia).
  replace (S i - length (take (S i) (splitlines content))) with 0
    by (rewrite length_take; lia).
  simpl. fold per_query.
  replace (length (concat per_query)) with (length (indent (concat per_query)))
    by apply length_fmap.
  apply take_app_length.
Qed.

Lemma C7_block_follows_query_order_witness :
  ∃ w' written,
    update_file two_query_psql "target" ["qa"; "qb"]
      (on_disk "target" scenario_file) = (w', Ok tt)
    ∧ files w' !! "target" = Some written
    ∧ take 3 (drop 2 (splitlines written))
      = [b "    A1"; b "    A2"; b "    B1"].
Proof.
  destruct (C7_block_follows_query_order two_query_psql "target" ["qa"; "qb"]
              (on_disk "target" scenario_file) scenario_file 1 3)
    as (_ & _ & _ & w' & written & H1 & H2 & H3);
    [reflexivity | reflexivity | reflexivity |].
  exists w', written. split; [exact H1|]. split; [exact H2|]. exact H3.
Defined.

(** C9: the file is written as its lines joined with LF plus one final
    LF.  No CR is left anywhere in it, whatever line ends the original
    had; it ends with an LF even when the original did not; and reading
    it back gives the same lines. *)
Theorem C9_line_ends_become_LF
    (psql : nat → string → proc_result) fn queries w content i j :
  files w !! fn = Some content →
  all_succeed psql (clock w) queries = true →
  marker_indices (splitlines content) = [i; j] →
  ∃ lines' w',
    update_file psql fn queries w = (w', Ok tt)
    ∧ files w' !! fn = Some (join [LF] lines' ++ [LF])
    ∧ lines' = take (S i) (splitlines content)
               ++ indent (concat (query_lines psql (clock w) queries))
               ++ drop j (splitlines content)
    ∧ Forall no_break lines'
    ∧ (CR ∉ join [LF] lines' ++ [LF])
    ∧ last (join [LF] lines' ++ [LF]) = Some LF
    ∧ splitlines (join [LF] lines' ++ [LF]) = lines'.
Proof.
  intros Hf Hall Hm.
  pose proof (marker_indices_two_bounds _ _ _ Hm) as Hb.
  pose proof (spliced_no_break psql content (clock w) queries i j) as Hnb.
  set (lines' := take (S i) (splitlines content)
                 ++ indent (concat (query_lines psql (clock w) queries))
                 ++ drop j (splitlines content)) in *.
  assert (lines' ≠ []) as Hne.
  { unfold lines'. destruct (splitlines content); simpl in *; [lia | done]. }
  exists lines'. eexists. split; [by apply update_file_success|].
  simpl. rewrite join_terminated by done. fold lines'.
  split; [apply lookup_insert_eq|]. split; [done|]. split; [done|].
  split; [by apply terminated_no_CR|].
  split; [by apply terminated_last | by apply splitlines_terminated].
Qed.

Lemma C9_line_ends_become_LF_witness :
  ∃ w', update_file scenario_psql "target" ["q"] (on_disk "target" crlf_file)
        = (w', Ok tt)
        ∧ files w' !! "target"
          = Some (text ["x = 1"; "# autogenerated: start"; "    NEW_A = 1";
                        "    NEW_B = 2"; "# autogenerated: end"]).
Proof.
  destruct (C9_line_ends_become_LF scenario_psql "target" ["q"]
              (on_disk "target" crlf_file) crlf_file 1 3)
    as (lines' & w' & H1 & H2 & -> & _);
    [reflexivity | reflexivity | reflexivity |].
  exists w'. split; [exact H1|]. rewrite H2. reflexivity.
Defined.

Example main_second_pipeline_fails :
  (main (failing_psql 4) idle_black "/repo" two_targets).2
  = Raise (CalledProcessError 2)
  ∧ files (main (failing_psql 4) idle_black "/repo" two_targets).1
      !! "/repo/psycopg/psycopg/postgres.py"
    = Some (text ["x = 1"; "# autogenerated: start"; "    NEW_A = 1";
                  "    NEW_A = 1"; "    NEW_A = 1"; "    NEW_A = 1";
                  "# autogenerated: end"; "y = 2"])
  ∧ files (main (failing_psql 4) idle_black "/repo" two_targets).1
      !! "/repo/psycopg_c/psycopg_c/_psycopg/oids.pxd"
    = Some scenario_file.
Proof. by vm_compute. Qed.

(** ** Failures *)

(** C8: when the run of a query fails, [update_file] ends with an error
    without starting any later query and without writing: every file is
    as it was.  In [main], a failure in the second pipeline leaves the
    files as the first pipeline left them. *)
Theorem C8_query_failure_writes_nothing
    (psql : nat → string → proc_result)
    (black : nat → option bytes → proc_result) :
  (∀ fn queries w k query,
     queries !! k = Some query →
     succeeded (psql (clock w + k) query) = false →
     ∃ e w', update_file psql fn queries w = (w', Raise e)
             ∧ files w' = files w ∧ clock w' ≤ clock w + S k)
  ∧ (∀ ROOT w w1 k query,
       update_python_oids psql black ROOT w = (w1, Ok tt) →
       [version_sql; cython_oids_sql] !! k = Some query →
       succeeded (psql (clock w1 + k) query) = false →
       ∃ e w2, main psql black ROOT w = (w2, Raise e) ∧ files w2 = files w1).
Proof.
  assert (∀ fn queries w k query,
     queries !! k = Some query →
     succeeded (psql (clock w + k) query) = false →
     ∃ e w', update_file psql fn queries w = (w', Raise e)
             ∧ files w' = files w ∧ clock w' ≤ clock w + S k) as Hfile.
  { intros fn queries w k query Hk Hfail.
    destruct (files w !! fn) as [content|] eqn:Hf.
    - destruct (run_queries_fail psql queries [] w k query Hk Hfail)
        as (e & w' & Hq & Hfiles & Hclock).
      exists e, w'. rewrite (update_file_query_error psql fn queries w content w' e)
        by done. repeat split; [done | lia].
    - exists (FileNotFoundError fn), w. rewrite update_file_missing by done.
      repeat split. lia. }
  split; [exact Hfile|].
  intros ROOT w w1 k query Hfirst Hk Hfail.
  destruct (Hfile (path_join ROOT "psycopg_c/psycopg_c/_psycopg/oids.pxd")
              [version_sql; cython_oids_sql] w1 k query Hk Hfail)
    as (e & w2 & Hsecond & Hfiles & _).
  exists e, w2. unfold main, bind. rewrite Hfirst.
  unfold update_cython_oids. by rewrite Hsecond.
Qed.

Lemma C8_query_failure_writes_nothing_witness :
  (∃ e w',
     update_file (failing_psql 1) "target" ["qa"; "qb"]
       (on_disk "target" scenario_file) = (w', Raise e)
     ∧ files w' = {[ "target" := scenario_file ]} ∧ clock w' ≤ 2)
  ∧ (∃ e w2,
       main (failing_psql 4) idle_black "/repo" two_targets = (w2, Raise e)
       ∧ files w2 = files (update_python_oids (failing_psql 4) idle_black
                             "/repo" two_targets).1).
Proof.
  split.
  - destruct (proj1 (C8_query_failure_writes_nothing (failing_psql 1) idle_black)
                "target" ["qa"; "qb"] (on_disk "target" scenario_file) 1 "qb")
      as (e & w' & H1 & H2 & H3); [reflexivity | reflexivity |].
    exists e, w'. split; [exact H1|]. split; [exact H2 | exact H3].
  - eapply (proj2 (C8_query_failure_writes_nothing (failing_psql 4) idle_black)
              "/repo" two_targets _ 0 version_sql);
      [by vm_compute | reflexivity | reflexivity].
Defined.

(** ** Running twice *)

(** C4: a second run of [update_file] on the same target, with the
    queries answering as in the first run, leaves every file as the
    first run left it; and when no line of the indented replacement is
    itself a marker line, the second run after a successful first one
    succeeds too (it rewrites the same bytes). *)
Theorem C4_second_run_changes_nothing
    (psql : nat → string → proc_result) fn queries w :
  let w1 := (update_file psql fn queries w).1 in
  (run_queries psql queries [] w1).2 = (run_queries psql queries [] w).2 →
  files (update_file psql fn queries w1).1 = files w1
  ∧ (∀ new, (update_file psql fn queries w).2 = Ok tt →
       (run_queries psql queries [] w).2 = Ok new →
       no_marker (indent new) →
       (update_file psql fn queries w1).2 = Ok tt).
Proof.
  destruct (update_file psql fn queries w) as [w1 r1] eqn:H1. simpl.
  intros Hsame.
  destruct r1 as [[]|e1].
  - (* the first run wrote the file *)
    destruct (update_file_ok_inv psql fn queries w w1 H1)
      as (content & new & i & j & Hf & Hq & Hnew & Hall & Hm).
    rewrite (update_file_success psql fn queries w content i j Hf Hall Hm) in H1.
    rewrite <- Hnew in H1. rewrite Hq in Hsame. simpl in Hsame.
    set (L := take (S i) (splitlines content) ++ indent new
              ++ drop j (splitlines content)) in *.
    assert (Forall no_break L) as HL.
    { unfold L. rewrite Hnew. apply spliced_no_break. }
    assert (files w1 !! fn = Some (terminated L)) as Hf1.
    { injection H1 as <-. simpl. apply lookup_insert_eq. }
    destruct (run_queries psql queries [] w1) as [w1q rq] eqn:Hq1.
    simpl in Hsame. subst rq.
    split.
    + destruct (update_file psql fn queries w1) as [w2 [[]|e2]] eqn:H2; simpl.
      * destruct (update_file_ok_inv psql fn queries w1 w2 H2)
          as (content2 & new2 & i2 & j2 & Hf2 & Hq2 & _ & _ & Hm2).
        rewrite Hf1 in Hf2. injection Hf2 as <-.
        rewrite Hq1 in Hq2. injection Hq2 as -> <-.
        rewrite (update_file_spliced psql fn queries w1 _ _ new i2 j2
                   Hf1 Hq1 Hm2) in H2.
        injection H2 as <-. simpl.
        rewrite splitlines_terminated in * by done.
        pose proof (splice_again _ i j (indent new) i2 j2 Hm Hm2) as Hagain.
        fold L in Hagain. rewrite Hagain.
        by apply insert_id.
      * by apply update_file_error_files in H2.
    + rewrite Hq. simpl. intros new' _ [= <-] Hnm.
      pose proof (marker_indices_after_splice _ i j (indent new) Hm Hnm) as Hm2.
      fold L in Hm2. rewrite <- (splitlines_terminated L) in Hm2 by done.
      by rewrite (update_file_spliced psql fn queries w1 _ _ new _ _
                    Hf1 Hq1 Hm2).
  - (* the first run failed: nothing was written *)
    pose proof (update_file_error_files psql fn queries w w1 e1 H1) as Hfiles.
    split; [|done].
    destruct (update_file psql fn queries w1) as [w2 [[]|e2]] eqn:H2; simpl.
    + exfalso.
      destruct (update_file_ok_inv psql fn queries w1 w2 H2)
        as (content2 & new2 & i2 & j2 & Hf2 & Hq2 & _ & _ & Hm2).
      rewrite Hq2 in Hsame. simpl in Hsame.
      destruct (run_queries psql queries [] w) as [wq rq] eqn:Hq.
      simpl in Hsame. subst rq. rewrite Hfiles in Hf2.
      rewrite (update_file_spliced psql fn queries w _ _ new2 i2 j2
                 Hf2 Hq Hm2) in H1. done.
    + by apply update_file_error_files in H2.
Qed.

Lemma C4_second_run_changes_nothing_witness :
  let w1 := (update_file scenario_psql "target" ["q"]
               (on_disk "target" scenario_file)).1 in
  files (update_file scenario_psql "target" ["q"] w1).1 = files w1
  ∧ (update_file scenario_psql "target" ["q"] w1).2 = Ok tt.
Proof.
  destruct (C4_second_run_changes_nothing scenario_psql "target" ["q"]
              (on_disk "target" scenario_file)) as [H1 H2]; [reflexivity|].
  split; [exact H1|].
  apply (H2 [b "NEW_A = 1"; b "NEW_B = 2"]); [reflexivity | reflexivity |].
  repeat constructor.
Defined.

(** A replacement that contains a marker line: the second run stops at
    the unpacking and leaves the file of the first run. *)
Example second_run_with_marker_in_block :
  let w1 := (update_file marker_psql "target" ["q"]
               (on_disk "target" scenario_file)).1 in
  (update_file marker_psql "target" ["q"] (on_disk "target" scenario_file)).2
  = Ok tt
  ∧ update_file marker_psql "target" ["q"] w1
    = (World (files w1) 2, Raise (ValueError_too_many 2)).
Proof. by vm_compute. Qed.

(** ** Which marker is which *)

(** C1, as the code has it: the two matching lines are told apart by
    their order in the file alone.  A file whose first marker line
    carries [end] and whose second carries [start] is accepted: with the
    queries succeeding, [update_file] completes and rewrites the file,
    the lines between the two replaced. *)
Theorem C1_markers_told_apart_by_order
    (psql : nat → string → proc_result) fn queries w content i j li lj :
  files w !! fn = Some content →
  all_succeed psql (clock w) queries = true →
  marker_indices (splitlines content) = [i; j] →
  splitlines content !! i = Some li → is_end_marker li = true →
  splitlines content !! j = Some lj → is_start_marker lj = true →
  i < j
  ∧ update_file psql fn queries w
    = (World (<[fn := terminated
                        (take (S i) (splitlines content)
                         ++ indent (concat (query_lines psql (clock w) queries))
                         ++ drop j (splitlines content))]> (files w))
             (clock w + length queries),
       Ok tt).
Proof.
  intros Hf Hall Hm _ _ _ _.
  split; [by apply marker_indices_two_bounds in Hm as [? _]|].
  by apply update_file_success.
Qed.

Lemma C1_markers_told_apart_by_order_witness :
  0 < 2
  ∧ update_file scenario_psql "target" ["q"] (on_disk "target" reversed_file)
    = (World {[ "target" := text ["# autogenerated: end"; "    NEW_A = 1";
                                  "    NEW_B = 2"; "# autogenerated: start"] ]}
             1, Ok tt).
Proof.
  destruct (C1_markers_told_apart_by_order scenario_psql "target" ["q"]
              (on_disk "target" reversed_file) reversed_file 0 2
              (b "# autogenerated: end") (b "# autogenerated: start"))
    as [H1 H2]; try reflexivity.
  split; [exact H1|]. rewrite H2. reflexivity.
Defined.

(** The end marker comes first in [reversed_file], and the run is not
    refused: it returns normally and the file is rewritten. *)
Lemma C1_end_before_start_is_spliced :
  is_end_marker (b "# autogenerated: end") = true
  ∧ is_start_marker (b "# autogenerated: start") = true
  ∧ splitlines reversed_file
    = [b "# autogenerated: end"; b "OLD_LINE = 0"; b "# autogenerated: start"]
  ∧ update_file scenario_psql "target" ["q"] (on_disk "target" reversed_file)
    = (World {[ "target" := text ["# autogenerated: end"; "    NEW_A = 1";
                                  "    NEW_B = 2"; "# autogenerated: start"] ]}
             1, Ok tt)
  ∧ text ["# autogenerated: end"; "    NEW_A = 1"; "    NEW_B = 2";
          "# autogenerated: start"] ≠ reversed_file.
Proof. repeat split; by vm_compute. Qed.

(** ** What stays outside the region *)

(** C3, as the code has it: with exactly two marker lines and the
    queries succeeding, the lines of the rewritten file are the lines up
    to and including the first marker, the new block, and the lines from
    the second marker on, each with the content it had; no other file
    changes.  The bytes written are these lines, each followed by one
    LF.  So the bytes outside the region are the ones the file had when
    every line outside the region ends with a single LF, whatever the
    line ends inside the old region; any other line end outside the
    region is rewritten as LF. *)
Theorem C3_lines_outside_region_kept
    (psql : nat → string → proc_result) fn queries w content i j :
  files w !! fn = Some content →
  all_succeed psql (clock w) queries = true →
  marker_indices (splitlines content) = [i; j] →
  let lines := splitlines content in
  ∃ w' written block,
    update_file psql fn queries w = (w', Ok tt)
    ∧ files w' !! fn = Some written
    ∧ block = indent (concat (query_lines psql (clock w) queries))
    ∧ (∀ fn', fn' ≠ fn → files w' !! fn' = files w !! fn')
    ∧ splitlines written = take (S i) lines ++ block ++ drop j lines
    ∧ (∀ k, k ≤ i → splitlines written !! k = lines !! k)
    ∧ (∀ k, splitlines written !! (S i + length block + k) = lines !! (j + k))
    ∧ written = terminated (take (S i) lines) ++ terminated block
                ++ terminated (drop j lines)
    ∧ (∀ before old after,
         content = before ++ old ++ after →
         before = terminated (take (S i) lines) →
         after = terminated (drop j lines) →
         written = before ++ terminated block ++ after)
    ∧ (content = terminated lines →
       ∃ old_block,
         content = terminated (take (S i) lines) ++ terminated old_block
                   ++ terminated (drop j lines)
         ∧ written = terminated (take (S i) lines) ++ terminated block
                     ++ terminated (drop j lines)).
Proof.
  intros Hf Hall Hm lines.
  pose proof (marker_indices_two_bounds _ _ _ Hm) as Hb. fold lines in Hb.
  set (block := indent (concat (query_lines psql (clock w) queries))).
  assert (length (take (S i) lines) = S i) as Hlen by (rewrite length_take; lia).
  eexists _, _, block. split; [by apply update_file_success|]. simpl.
  split; [apply lookup_insert_eq|]. split; [done|].
  split; [by intros fn' Hne; apply lookup_insert_ne|].
  rewrite splitlines_terminated by apply spliced_no_break. fold lines block.
  split; [done|]. split; [|split; [|split; [|split]]].
  - intros k Hk. rewrite lookup_app_l by lia. apply lookup_take_lt. lia.
  - intros k. rewrite lookup_app_r by lia. rewrite Hlen.
    rewrite lookup_app_r by lia. rewrite lookup_drop. f_equal. lia.
  - by rewrite !terminated_app.
  - intros before old after _ -> ->. by rewrite !terminated_app.
  - intros Hlf. exists (take (j - S i) (drop (S i) lines)). split.
    + rewrite <- !terminated_app. rewrite Hlf at 1. f_equal.
      rewrite <- (take_drop (S i) lines) at 1. f_equal.
      rewrite <- (take_drop (j - S i) (drop (S i) lines)) at 1. f_equal.
      rewrite drop_drop. f_equal. lia.
    + by rewrite <- !terminated_app.
Qed.

Lemma C3_lines_outside_region_kept_witness :
  (∃ w' written block,
     update_file scenario_psql "target" ["q"] (on_disk "target" scenario_file)
     = (w', Ok tt)
     ∧ files w' !! "target" = Some written
     ∧ splitlines written
       = [b "x = 1"; b "# autogenerated: start"] ++ block
         ++ [b "# autogenerated: end"; b "y = 2"]
     ∧ written = text ["x = 1"; "# autogenerated: start"] ++ terminated block
                 ++ text ["# autogenerated: end"; "y = 2"])
  ∧ (∃ w' written block,
       update_file scenario_psql "target" ["q"] (on_disk "target" mixed_file)
       = (w', Ok tt)
       ∧ files w' !! "target" = Some written
       ∧ block = [b "    NEW_A = 1"; b "    NEW_B = 2"]
       ∧ written = text ["x = 1"; "# autogenerated: start"] ++ terminated block
                   ++ text ["# autogenerated: end"; "y = 2"])
  ∧ (∃ w' written block,
       update_file scenario_psql "target" ["q"] (on_disk "target" crlf_file)
       = (w', Ok tt)
       ∧ files w' !! "target" = Some written
       ∧ written = text ["x = 1"; "# autogenerated: start"] ++ terminated block
                   ++ text ["# autogenerated: end"]).
Proof.
  split; [|split].
  - destruct (C3_lines_outside_region_kept scenario_psql "target" ["q"]
                (on_disk "target" scenario_file) scenario_file 1 3)
      as (w' & written & block & H1 & H2 & _ & _ & H4 & _ & _ & _ & _ & H7);
      [reflexivity | reflexivity | reflexivity |].
    exists w', written, block. split; [exact H1|]. split; [exact H2|].
    split; [exact H4|].
    destruct H7 as (old_block & _ & H8); [reflexivity | exact H8].
  - destruct (C3_lines_outside_region_kept scenario_psql "target" ["q"]
                (on_disk "target" mixed_file) mixed_file 1 3)
      as (w' & written & block & H1 & H2 & H3 & _ & _ & _ & _ & _ & H8 & _);
      [reflexivity | reflexivity | reflexivity |].
    exists w', written, block. split; [exact H1|]. split; [exact H2|].
    split; [exact H3|].
    apply (H8 (text ["x = 1"; "# autogenerated: start"])
              (text_crlf ["OLD_LINE = 0"])
              (text ["# autogenerated: end"; "y = 2"]));
      reflexivity.
  - destruct (C3_lines_outside_region_kept scenario_psql "target" ["q"]
                (on_disk "target" crlf_file) crlf_file 1 3)
      as (w' & written & block & H1 & H2 & _ & _ & _ & _ & _ & H7 & _);
      [reflexivity | reflexivity | reflexivity |].
    exists w', written, block. split; [exact H1|]. split; [exact H2|].
    exact H7.
Defined.

(** In [crlf_file] the line before the start marker ends with CR LF;
    after the run it ends with LF: the bytes before the start marker are
    not the ones the file had. *)
Lemma C3_bytes_before_start_marker_change :
  marker_indices (splitlines crlf_file) = [1; 3]
  ∧ take 7 crlf_file = b "x = 1" ++ [CR; LF]
  ∧ update_file scenario_psql "target" ["q"] (on_disk "target" crlf_file)
    = (World {[ "target" := text ["x = 1"; "# autogenerated: start";
                                  "    NEW_A = 1"; "    NEW_B = 2";
                                  "# autogenerated: end"] ]} 1, Ok tt)
  ∧ take 7 (text ["x = 1"; "# autogenerated: start"; "    NEW_A = 1";
                  "    NEW_B = 2"; "# autogenerated: end"])
    = b "x = 1" ++ [LF] ++ b "#"
  ∧ take 7 (text ["x = 1"; "# autogenerated: start"; "    NEW_A = 1";
                  "    NEW_B = 2"; "# autogenerated: end"])
    ≠ take 7 crlf_file.
Proof. repeat split; by vm_compute. Qed.

(** ** Order of the effects of [update_file] *)

(** X1: a missing target file is reported before anything else happens:
    no query is run and nothing is written. *)
Theorem X1_missing_file_runs_no_query
    (psql : nat → string → proc_result) fn queries w :
  files w !! fn = None →
  update_file psql fn queries w = (w, Raise (FileNotFoundError fn)).
Proof. apply update_file_missing. Qed.

Lemma X1_missing_file_runs_no_query_witness :
  update_file scenario_psql "target" [version_sql; cython_oids_sql]
    (on_disk "other" scenario_file)
  = (on_disk "other" scenario_file, Raise (FileNotFoundError "target")).
Proof.
  apply (X1_missing_file_runs_no_query scenario_psql "target"
           [version_sql; cython_oids_sql] (on_disk "other" scenario_file)).
  reflexivity.
Defined.

Lemma update_file_other_files
    (psql : nat → string → proc_result) fn queries w fn' :
  fn' ≠ fn →
  files (update_file psql fn queries w).1 !! fn' = files w !! fn'.
Proof.
  intros Hne.
  destruct (update_file psql fn queries w) as [w' [[]|e]] eqn:H; simpl.
  - destruct (update_file_ok_inv psql fn queries w w' H)
      as (content & new & i & j & Hf & _ & _ & Hall & Hm).
    rewrite (update_file_success psql fn queries w content i j Hf Hall Hm) in H.
    injection H as <-. simpl. by apply lookup_insert_ne.
  - by rewrite (update_file_error_files psql fn queries w w' e H).
Qed.

(** X2: whatever the outcome, [update_file] leaves every file other than
    its target as it was. *)
Theorem X2_other_files_untouched
    (psql : nat → string → proc_result) fn queries w fn' :
  fn' ≠ fn →
  files (update_file psql fn queries w).1 !! fn' = files w !! fn'.
Proof. apply update_file_other_files. Qed.

Lemma X2_other_files_untouched_witness :
  files (update_file scenario_psql "/repo/psycopg/psycopg/postgres.py" ["q"]
           two_targets).1 !! "/repo/psycopg_c/psycopg_c/_psycopg/oids.pxd"
  = Some scenario_file.
Proof.
  rewrite (X2_other_files_untouched scenario_psql
             "/repo/psycopg/psycopg/postgres.py" ["q"] two_targets
             "/repo/psycopg_c/psycopg_c/_psycopg/oids.pxd");
    [reflexivity | discriminate].
Defined.

(** X3: the markers are looked for only after the queries have run.  On
    a file with [n] marker lines, [n] other than two, and with every
    query succeeding, all the queries have been run when the error is
    raised; the error says that there are not enough values ([n] of the
    two expected) when [n] is below two, and too many otherwise. *)
Theorem X3_marker_count_checked_after_queries
    (psql : nat → string → proc_result) fn queries w content :
  files w !! fn = Some content →
  all_succeed psql (clock w) queries = true →
  let n := length (marker_indices (splitlines content)) in
  n ≠ 2 →
  update_file psql fn queries w
  = (World (files w) (clock w + length queries),
     Raise (if n <? 2 then ValueError_not_enough 2 n
            else ValueError_too_many 2)).
Proof.
  intros Hf Hall n Hn. unfold update_file, bind, read_file.
  rewrite Hf, run_queries_ok by done. subst n.
  by destruct (marker_indices (splitlines content)) as [|i [|j [|k l]]].
Qed.

Lemma X3_marker_count_checked_after_queries_witness :
  update_file scenario_psql "target" ["qa"; "qb"]
    (on_disk "target" start_only_file)
  = (World {[ "target" := start_only_file ]} 2,
     Raise (ValueError_not_enough 2 1)).
Proof.
  rewrite (X3_marker_count_checked_after_queries scenario_psql "target"
             ["qa"; "qb"] (on_disk "target" start_only_file) start_only_file);
    [reflexivity | reflexivity | reflexivity | by vm_compute].
Defined.

Lemma run_queries_first_failure
    (psql : nat → string → proc_result) queries new w k query :
  queries !! k = Some query →
  all_succeed psql (clock w) (take k queries) = true →
  succeeded (psql (clock w + k) query) = false →
  run_queries psql queries new w
  = (World (files w) (clock w + S k),
     Raise (match psql (clock w + k) query with
            | Exited code _ => CalledProcessError code
            | CannotRun => OSError
            end)).
Proof.
  revert new w k. induction queries as [|q' qs IH]; intros new w k; [done|].
  destruct k as [|k]; simpl.
  - intros [= ->] _. rewrite Nat.add_0_r. intros Hfail.
    unfold bind, run_psql. rewrite Nat.add_1_r.
    destruct (psql (clock w) query) as [[| |] out|]; done.
  - intros Hk [Hq' Hall]%andb_true_iff Hfail. unfold bind.
    rewrite run_psql_ok by done.
    replace (clock w + S k) with (S (clock w) + k) in * by lia.
    replace (clock w + S (S k)) with (S (clock w) + S k) by lia.
    by apply (IH _ (World (files w) (S (clock w))) k Hk).
Qed.

(** X4: the first query whose run fails decides the outcome.  When the
    queries before the one at position [k] succeed and that one does
    not, [update_file] raises [CalledProcessError] with its return code
    (or [OSError] when [psql] could not be started) after [k + 1] runs:
    the queries after it are not run, and nothing is written. *)
Theorem X4_first_failing_query_decides
    (psql : nat → string → proc_result) fn queries w content k query :
  files w !! fn = Some content →
  queries !! k = Some query →
  all_succeed psql (clock w) (take k queries) = true →
  succeeded (psql (clock w + k) query) = false →
  update_file psql fn queries w
  = (World (files w) (clock w + S k),
     Raise (match psql (clock w + k) query with
            | Exited code _ => CalledProcessError code
            | CannotRun => OSError
            end)).
Proof.
  intros Hf Hk Hall Hfail.
  apply (update_file_query_error psql fn queries w content); [done|].
  by apply run_queries_first_failure.
Qed.

Lemma X4_first_failing_query_decides_witness :
  update_file (failing_psql 1) "target" ["qa"; "qb"; "qc"]
    (on_disk "target" scenario_file)
  = (World {[ "target" := scenario_file ]} 2, Raise (CalledProcessError 2)).
Proof.
  rewrite (X4_first_failing_query_decides (failing_psql 1) "target"
             ["qa"; "qb"; "qc"] (on_disk "target" scenario_file)
             scenario_file 1 "qb"); reflexivity.
Defined.

(** ** Markers and the replacement *)

Lemma is_marker_iff_shape line : is_marker line = true ↔ marker_shape line.
Proof. unfold is_marker. by rewrite re_match_spec, marker_shape_iff. Qed.

Lemma marker_shape_space c line :
  is_space c = true → marker_shape (c :: line) ↔ marker_shape line.
Proof.
  intros Hc. split.
  - intros (ws1 & ws2 & ws3 & tok & rest & E & H1 & H2 & H3 & Hne & Htok).
    destruct ws1 as [|c' ws1'].
    + simpl in E. injection E as Ec _. by rewrite Ec in Hc.
    + simpl in E. injection E as <- ->. inversion H1; subst.
      by exists ws1', ws2, ws3, tok, rest.
  - intros (ws1 & ws2 & ws3 & tok & rest & -> & H1 & H2 & H3 & Hne & Htok).
    exists (c :: ws1), ws2, ws3, tok, rest.
    repeat split; try done. by constructor.
Qed.

Lemma is_marker_space c line :
  is_space c = true → is_marker (c :: line) = is_marker line.
Proof.
  intros Hc. pose proof (marker_shape_space c line Hc) as H.
  rewrite <- !is_marker_iff_shape in H.
  destruct (is_marker (c :: line)), (is_marker line); try done.
  - symmetry. by apply H.
  - by apply H.
Qed.

Lemma is_marker_indent_line line :
  is_marker (indent_line line) = is_marker line.
Proof.
  destruct line as [|c line]; [done|].
  change (is_marker (x20 :: x20 :: x20 :: x20 :: c :: line)
          = is_marker (c :: line)).
  by do 4 (rewrite is_marker_space by reflexivity).
Qed.

(** X5: indenting a line neither makes it a marker line nor stops it
    from being one. *)
Theorem X5_indent_keeps_marker_status line :
  is_marker (indent_line line) = is_marker line.
Proof. apply is_marker_indent_line. Qed.

Lemma no_marker_indent new : no_marker (indent new) ↔ no_marker new.
Proof.
  unfold no_marker, indent. rewrite Forall_fmap. apply Forall_proper; [|done].
  intros line. simpl. by rewrite is_marker_indent_line.
Qed.

Lemma marker_indices_from_length k l :
  length (marker_indices_from k l) = length (marker_indices_from 0 l).
Proof.
  revert k. induction l as [|x l IH]; intros k; [done|].
  rewrite !marker_indices_from_cons. destruct (is_marker x); simpl;
    by rewrite (IH (S k)), (IH 1).
Qed.

(** X6: after a successful run the file has exactly two marker lines
    again, and so can be spliced again, exactly when no line printed by
    the queries is itself a marker line; the two markers are then at
    [i] and right after the new block. *)
Theorem X6_two_markers_kept_iff
    (psql : nat → string → proc_result) fn queries w content i j :
  files w !! fn = Some content →
  all_succeed psql (clock w) queries = true →
  marker_indices (splitlines content) = [i; j] →
  let printed := concat (query_lines psql (clock w) queries) in
  ∃ w' written,
    update_file psql fn queries w = (w', Ok tt)
    ∧ files w' !! fn = Some written
    ∧ (length (marker_indices (splitlines written)) = 2 ↔ no_marker printed)
    ∧ (no_marker printed →
       marker_indices (splitlines written) = [i; S i + length printed]).
Proof.
  intros Hf Hall Hm printed.
  eexists _, _. split; [by apply update_file_success|]. simpl.
  split; [apply lookup_insert_eq|].
  rewrite splitlines_terminated by apply spliced_no_break. fold printed.
  assert (no_marker printed →
          marker_indices (take (S i) (splitlines content) ++ indent printed
                          ++ drop j (splitlines content))
          = [i; S i + length printed]) as Hpos.
  { intros Hp. rewrite (marker_indices_after_splice _ i j) by
      (done || by apply no_marker_indent).
    unfold indent. by rewrite length_fmap. }
  split; [|exact Hpos]. split; [|by intros ->%Hpos].
  apply marker_indices_two in Hm
    as (pre & m1 & mid & m2 & post & -> & Hpre & _ & Hpost & Hm1 & Hm2 & -> & ->).
  destruct (take_drop_markers pre mid post m1 m2) as [-> ->].
  rewrite <- app_assoc. simpl. rewrite marker_indices_replaced by done.
  simpl. rewrite length_app. simpl. intros Hlen.
  apply no_marker_indent, (marker_indices_from_none (S (length pre))).
  apply length_zero_iff_nil. lia.
Qed.

Lemma X6_two_markers_kept_iff_witness :
  ∃ w' written,
    update_file scenario_psql "target" ["q"] (on_disk "target" scenario_file)
    = (w', Ok tt)
    ∧ files w' !! "target" = Some written
    ∧ marker_indices (splitlines written) = [1; 4].
Proof.
  destruct (X6_two_markers_kept_iff scenario_psql "target" ["q"]
              (on_disk "target" scenario_file) scenario_file 1 3)
    as (w' & written & H1 & H2 & _ & H4);
    [reflexivity | reflexivity | reflexivity |].
  exists w', written. split; [exact H1|]. split; [exact H2|].
  apply H4. repeat constructor.
Defined.

(** X7: the rewritten file has the lines of the original, less the
    [j - i - 1] lines that were between the markers, plus the lines
    printed by the queries. *)
Theorem X7_line_count_after_run
    (psql : nat → string → proc_result) fn queries w content i j :
  files w !! fn = Some content →
  all_succeed psql (clock w) queries = true →
  marker_indices (splitlines content) = [i; j] →
  ∃ w' written,
    update_file psql fn queries w = (w', Ok tt)
    ∧ files w' !! fn = Some written
    ∧ length (splitlines written) + (j - S i)
      = length (splitlines content)
        + length (concat (query_lines psql (clock w) queries)).
Proof.
  intros Hf Hall Hm.
  pose proof (marker_indices_two_bounds _ _ _ Hm) as Hb.
  eexists _, _. split; [by apply update_file_success|]. simpl.
  split; [apply lookup_insert_eq|].
  rewrite splitlines_terminated by apply spliced_no_break.
  rewrite !length_app, length_take, length_drop. unfold indent.
  rewrite length_fmap. lia.
Qed.

Lemma X7_line_count_after_run_witness :
  ∃ w' written,
    update_file scenario_psql "target" ["q"] (on_disk "target" scenario_file)
    = (w', Ok tt)
    ∧ files w' !! "target" = Some written
    ∧ length (splitlines written) + 1 = 5 + 2.
Proof.
  destruct (X7_line_count_after_run scenario_psql "target" ["q"]
              (on_disk "target" scenario_file) scenario_file 1 3)
    as (w' & written & H1 & H2 & H3);
    [reflexivity | reflexivity | reflexivity |].
  exists w', written. split; [exact H1|]. split; [exact H2 | exact H3].
Defined.

(** X8: what the region held before does not matter.  Two files with
    the same lines outside of their regions (whatever their line ends)
    are rewritten, at the same moment, to the same bytes. *)
Theorem X8_old_region_is_ignored
    (psql : nat → string → proc_result) fn queries wa wb ca cb
    pre m1 mida midb m2 post :
  files wa !! fn = Some ca → files wb !! fn = Some cb →
  clock wa = clock wb →
  all_succeed psql (clock wa) queries = true →
  splitlines ca = pre ++ m1 :: mida ++ m2 :: post →
  splitlines cb = pre ++ m1 :: midb ++ m2 :: post →
  no_marker pre → no_marker mida → no_marker midb → no_marker post →
  is_marker m1 = true → is_marker m2 = true →
  (update_file psql fn queries wa).2 = Ok tt
  ∧ (update_file psql fn queries wb).2 = Ok tt
  ∧ files (update_file psql fn queries wa).1 !! fn
    = files (update_file psql fn queries wb).1 !! fn.
Proof.
  intros Hfa Hfb Hclock Halla Ha Hb Hpre Hmida Hmidb Hpost Hm1 Hm2.
  assert (all_succeed psql (clock wb) queries = true) as Hallb
    by by rewrite <- Hclock.
  assert (marker_indices (splitlines ca)
          = [length pre; length pre + 1 + length mida]) as Hma.
  { apply marker_indices_two. by exists pre, m1, mida, m2, post. }
  assert (marker_indices (splitlines cb)
          = [length pre; length pre + 1 + length midb]) as Hmb.
  { apply marker_indices_two. by exists pre, m1, midb, m2, post. }
  rewrite (update_file_success psql fn queries wa ca _ _ Hfa Halla Hma).
  rewrite (update_file_success psql fn queries wb cb _ _ Hfb Hallb Hmb).
  simpl. split; [done|]. split; [done|]. rewrite !lookup_insert_eq.
  rewrite Ha, Hb, Hclock.
  destruct (take_drop_markers pre mida post m1 m2) as [-> ->].
  by destruct (take_drop_markers pre midb post m1 m2) as [-> ->].
Qed.

Lemma X8_old_region_is_ignored_witness :
  files (update_file scenario_psql "target" ["q"]
           (on_disk "target" scenario_file)).1 !! "target"
  = files (update_file scenario_psql "target" ["q"]
             (on_disk "target"
                (text_crlf ["x = 1"; "# autogenerated: start"; "A"; "B";
                            "# autogenerated: end"; "y = 2"]))).1 !! "target".
Proof.
  destruct (X8_old_region_is_ignored scenario_psql "target" ["q"]
              (on_disk "target" scenario_file)
              (on_disk "target"
                 (text_crlf ["x = 1"; "# autogenerated: start"; "A"; "B";
                             "# autogenerated: end"; "y = 2"]))
              scenario_file
              (text_crlf ["x = 1"; "# autogenerated: start"; "A"; "B";
                          "# autogenerated: end"; "y = 2"])
              [b "x = 1"] (b "# autogenerated: start")
              [b "OLD_LINE = 0"] [b "A"; b "B"]
              (b "# autogenerated: end") [b "y = 2"])
    as (_ & _ & H);
    [reflexivity | reflexivity | reflexivity | reflexivity | reflexivity
    | reflexivity | repeat constructor | repeat constructor
    | repeat constructor | repeat constructor | reflexivity | reflexivity |].
  exact H.
Defined.

(** X9: the pattern is tied to the start of the line and not to its
    end.  Anything may follow a marker; but a line whose first byte is
    neither whitespace nor [#] is never a marker, whatever comes
    after. *)
Theorem X9_marker_tied_to_line_start :
  (∀ line rest, is_marker line = true → is_marker (line ++ rest) = true)
  ∧ (∀ c line, is_space c = false → c ≠ x23 → is_marker (c :: line) = false).
Proof.
  split.
  - intros line rest
      (ws1 & ws2 & ws3 & tok & rest' & -> & H1 & H2 & H3 & Hne & Htok)
        %is_marker_iff_shape.
    apply is_marker_iff_shape.
    exists ws1, ws2, ws3, tok, (rest' ++ rest). by rewrite <- !app_assoc.
  - intros c line Hc Hhash. apply not_true_is_false.
    intros (ws1 & ws2 & ws3 & tok & rest & E & H1 & _)%is_marker_iff_shape.
    destruct ws1 as [|c' ws1']; simpl in E; injection E as Ec _.
    + done.
    + inversion H1; subst. congruence.
Qed.

Lemma X9_marker_tied_to_line_start_witness :
  is_marker (b "# autogenerated: end" ++ b "ing soon") = true
  ∧ is_marker (b "x = 1  # autogenerated: start") = false.
Proof.
  destruct X9_marker_tied_to_line_start as [H1 H2]. split.
  - apply (H1 (b "# autogenerated: end") (b "ing soon")). reflexivity.
  - apply (H2 x78 (b " = 1  # autogenerated: start")); [reflexivity | discriminate].
Defined.

(** ** The two pipelines *)

Lemma path_join_inj root rel1 rel2 :
  path_join root rel1 = path_join root rel2 → rel1 = rel2.
Proof.
  unfold path_join. induction root as [|c root IH].
  - intros [= H]. exact H.
  - intros [= H]. by apply IH.
Qed.

Lemma target_paths_differ ROOT :
  path_join ROOT "psycopg_c/psycopg_c/_psycopg/oids.pxd"
  ≠ path_join ROOT "psycopg/psycopg/postgres.py".
Proof. by intros H%path_join_inj. Qed.

Lemma check_call_black_other_files
    (black : nat → option bytes → proc_result) fn w fn' :
  fn' ≠ fn → files (check_call_black black fn w).1 !! fn' = files w !! fn'.
Proof.
  intros Hne. unfold check_call_black.
  destruct (black (clock w) (files w !! fn)) as [code out|]; [|done].
  destruct (code =? 0)%Z; simpl;
    (destruct (files w !! fn); [by apply lookup_insert_ne | done]).
Qed.

Lemma update_python_oids_other_files
    (psql : nat → string → proc_result)
    (black : nat → option bytes → proc_result) ROOT w fn' :
  fn' ≠ path_join ROOT "psycopg/psycopg/postgres.py" →
  files (update_python_oids psql black ROOT w).1 !! fn' = files w !! fn'.
Proof.
  intros Hne. unfold update_python_oids, bind.
  pose proof (update_file_other_files psql
                (path_join ROOT "psycopg/psycopg/postgres.py")
                [version_sql; py_types_sql; py_ranges_sql; py_multiranges_sql]
                w fn' Hne) as H.
  destruct (update_file psql _ _ w) as [w1 [[]|e]]; simpl in *; [|done].
  by rewrite check_call_black_other_files.
Qed.

Lemma update_python_oids_spliced
    (psql : nat → string → proc_result)
    (black : nat → option bytes → proc_result) ROOT w content i j :
  let fn := path_join ROOT "psycopg/psycopg/postgres.py" in
  let queries :=
    [version_sql; py_types_sql; py_ranges_sql; py_multiranges_sql] in
  let spliced :=
    terminated (take (S i) (splitlines content)
                ++ indent (concat (query_lines psql (clock w) queries))
                ++ drop j (splitlines content)) in
  files w !! fn = Some content →
  all_succeed psql (clock w) queries = true →
  marker_indices (splitlines content) = [i; j] →
  update_python_oids psql black ROOT w
  = match black (clock w + 4) (Some spliced) with
    | Exited code out =>
        (World (<[fn := out]> (files w)) (clock w + 5),
         if (code =? 0)%Z then Ok tt else Raise (CalledProcessError code))
    | CannotRun =>
        (World (<[fn := spliced]> (files w)) (clock w + 5), Raise OSError)
    end.
Proof.
  intros fn queries spliced Hf Hall Hm. unfold update_python_oids, bind.
  fold fn queries.
  rewrite (update_file_success psql fn queries w content i j Hf Hall Hm).
  fold spliced. unfold check_call_black. simpl.
  rewrite lookup_insert_eq.
  destruct (black (clock w + 4) (Some spliced)) as [code out|].
  - rewrite insert_insert_eq. replace (S (clock w + 4)) with (clock w + 5) by lia.
    by destruct (code =? 0)%Z.
  - by replace (S (clock w + 4)) with (clock w + 5) by lia.
Qed.

(** X10: in the first pipeline [black] is run once the file has been
    spliced, on the spliced bytes.  What it leaves in the file stays
    there whatever its return code; a return code other than 0 is raised
    as [CalledProcessError], and [OSError] is raised, with the spliced
    bytes in the file, when it cannot be started. *)
Theorem X10_black_after_splice
    (psql : nat → string → proc_result)
    (black : nat → option bytes → proc_result) ROOT w content i j :
  let fn := path_join ROOT "psycopg/psycopg/postgres.py" in
  let queries :=
    [version_sql; py_types_sql; py_ranges_sql; py_multiranges_sql] in
  let spliced :=
    terminated (take (S i) (splitlines content)
                ++ indent (concat (query_lines psql (clock w) queries))
                ++ drop j (splitlines content)) in
  files w !! fn = Some content →
  all_succeed psql (clock w) queries = true →
  marker_indices (splitlines content) = [i; j] →
  update_python_oids psql black ROOT w
  = match black (clock w + 4) (Some spliced) with
    | Exited code out =>
        (World (<[fn := out]> (files w)) (clock w + 5),
         if (code =? 0)%Z then Ok tt else Raise (CalledProcessError code))
    | CannotRun =>
        (World (<[fn := spliced]> (files w)) (clock w + 5), Raise OSError)
    end.
Proof. apply update_python_oids_spliced. Qed.

Lemma X10_black_after_splice_witness :
  update_python_oids scenario_psql failing_black "/repo" two_targets
  = (World (<["/repo/psycopg/psycopg/postgres.py" :=
               text ["x = 1"; "# autogenerated: start";
                     "    NEW_A = 1"; "    NEW_B = 2";
                     "    NEW_A = 1"; "    NEW_B = 2";
                     "    NEW_A = 1"; "    NEW_B = 2";
                     "    NEW_A = 1"; "    NEW_B = 2";
                     "# autogenerated: end"; "y = 2"]]> (files two_targets)) 5,
     Raise (CalledProcessError 1)).
Proof.
  rewrite (X10_black_after_splice scenario_psql failing_black "/repo"
             two_targets scenario_file 1 3);
    [reflexivity | reflexivity | reflexivity | reflexivity].
Defined.

(** X11: when the first pipeline fails, whether in [update_file] or in
    [black], [main] ends with that error without starting the second
    pipeline, whose target file is as it was. *)
Theorem X11_first_pipeline_failure_ends_main
    (psql : nat → string → proc_result)
    (black : nat → option bytes → proc_result) ROOT w w1 e :
  update_python_oids psql black ROOT w = (w1, Raise e) →
  main psql black ROOT w = (w1, Raise e)
  ∧ files w1 !! path_join ROOT "psycopg_c/psycopg_c/_psycopg/oids.pxd"
    = files w !! path_join ROOT "psycopg_c/psycopg_c/_psycopg/oids.pxd".
Proof.
  intros H. split.
  - unfold main, bind. by rewrite H.
  - pose proof (update_python_oids_other_files psql black ROOT w _
                  (target_paths_differ ROOT)) as Hother.
    by rewrite H in Hother.
Qed.

Lemma X11_first_pipeline_failure_ends_main_witness :
  ∃ w1,
    main scenario_psql failing_black "/repo" two_targets
    = (w1, Raise (CalledProcessError 1))
    ∧ clock w1 = 5
    ∧ files w1 !! "/repo/psycopg_c/psycopg_c/_psycopg/oids.pxd"
      = Some scenario_file.
Proof.
  eexists. split; [|split].
  - apply (X11_first_pipeline_failure_ends_main scenario_psql failing_black
             "/repo" two_targets). reflexivity.
  - reflexivity.
  - reflexivity.
Defined.

(** X12: with both target files well formed, every query succeeding and
    [black] returning 0, [main] succeeds after seven processes: the
    first target holds what [black] left of the spliced bytes, the
    second target the bytes spliced from the queries run after
    [black]. *)
Theorem X12_main_runs_both_pipelines
    (psql : nat → string → proc_result)
    (black : nat → option bytes → proc_result)
    ROOT w ca cb ia ja ib jb out :
  let fa := path_join ROOT "psycopg/psycopg/postgres.py" in
  let fb := path_join ROOT "psycopg_c/psycopg_c/_psycopg/oids.pxd" in
  let qa := [version_sql; py_types_sql; py_ranges_sql; py_multiranges_sql] in
  let qb := [version_sql; cython_oids_sql] in
  let spliced_a :=
    terminated (take (S ia) (splitlines ca)
                ++ indent (concat (query_lines psql (clock w) qa))
                ++ drop ja (splitlines ca)) in
  let spliced_b :=
    terminated (take (S ib) (splitlines cb)
                ++ indent (concat (query_lines psql (clock w + 5) qb))
                ++ drop jb (splitlines cb)) in
  files w !! fa = Some ca → files w !! fb = Some cb →
  marker_indices (splitlines ca) = [ia; ja] →
  marker_indices (splitlines cb) = [ib; jb] →
  all_succeed psql (clock w) qa = true →
  black (clock w + 4) (Some spliced_a) = Exited 0 out →
  all_succeed psql (clock w + 5) qb = true →
  main psql black ROOT w
  = (World (<[fb := spliced_b]> (<[fa := out]> (files w))) (clock w + 7),
     Ok tt).
Proof.
  intros fa fb qa qb spliced_a spliced_b Hfa Hfb Hma Hmb Halla Hblack Hallb.
  unfold main, bind.
  pose proof (update_python_oids_spliced psql black ROOT w ca ia ja Hfa Halla Hma) as Hfirst.
  fold fa qa spliced_a in Hfirst. rewrite Hblack in Hfirst. simpl in Hfirst.
  rewrite Hfirst. unfold update_cython_oids. fold fb qb.
  rewrite (update_file_success psql fb qb _ cb ib jb); simpl.
  - fold spliced_b. by replace (clock w + 5 + 2) with (clock w + 7) by lia.
  - rewrite lookup_insert_ne; [done|]. apply not_eq_sym, target_paths_differ.
  - done.
  - done.
Qed.

Lemma X12_main_runs_both_pipelines_witness :
  main scenario_psql idle_black "/repo" two_targets
  = (World {[ "/repo/psycopg/psycopg/postgres.py" :=
                text ["x = 1"; "# autogenerated: start";
                      "    NEW_A = 1"; "    NEW_B = 2";
                      "    NEW_A = 1"; "    NEW_B = 2";
                      "    NEW_A = 1"; "    NEW_B = 2";
                      "    NEW_A = 1"; "    NEW_B = 2";
                      "# autogenerated: end"; "y = 2"];
              "/repo/psycopg_c/psycopg_c/_psycopg/oids.pxd" :=
                text ["x = 1"; "# autogenerated: start";
                      "    NEW_A = 1"; "    NEW_B = 2";
                      "    NEW_A = 1"; "    NEW_B = 2";
                      "# autogenerated: end"; "y = 2"] ]} 7, Ok tt).
Proof.
  rewrite (X12_main_runs_both_pipelines scenario_psql idle_black "/repo"
             two_targets scenario_file scenario_file 1 3 1 3
             (text ["x = 1"; "# autogenerated: start";
                    "    NEW_A = 1"; "    NEW_B = 2";
                    "    NEW_A = 1"; "    NEW_B = 2";
                    "    NEW_A = 1"; "    NEW_B = 2";
                    "    NEW_A = 1"; "    NEW_B = 2";
                    "# autogenerated: end"; "y = 2"]));
    [reflexivity | reflexivity | reflexivity | reflexivity | reflexivity
    | reflexivity | reflexivity | reflexivity].
Defined.

(** X13: whatever the outcome, [main] leaves every file other than its
    two targets as it was. *)
Theorem X13_main_touches_only_targets
    (psql : nat → string → proc_result)
    (black : nat → option bytes → proc_result) ROOT w fn' :
  fn' ≠ path_join ROOT "psycopg/psycopg/postgres.py" →
  fn' ≠ path_join ROOT "psycopg_c/psycopg_c/_psycopg/oids.pxd" →
  files (main psql black ROOT w).1 !! fn' = files w !! fn'.
Proof.
  intros Ha Hb. unfold main, bind.
  pose proof (update_python_oids_other_files psql black ROOT w fn' Ha) as H1.
  destruct (update_python_oids psql black ROOT w) as [w1 [[]|e]];
    simpl in *; [|done].
  unfold update_cython_oids. by rewrite update_file_other_files.
Qed.

Lemma X13_main_touches_only_targets_witness :
  files (main scenario_psql idle_black "/repo"
           (World (<["/repo/README" := b "read me"]> (files two_targets)) 0)).1
    !! "/repo/README"
  = Some (b "read me").
Proof.
  rewrite (X13_main_touches_only_targets scenario_psql idle_black "/repo"
             (World (<["/repo/README" := b "read me"]> (files two_targets)) 0)
             "/repo/README"); [reflexivity | discriminate | discriminate].
Defined.

(** X14: an up-to-date file is rewritten to the same bytes.  When the
    file has LF line ends throughout and its region already holds the
    indented lines the queries print now, none of them a marker, the run
    succeeds and leaves every file byte for byte as it was. *)
Theorem X14_up_to_date_file_unchanged
    (psql : nat → string → proc_result) fn queries w pre m1 m2 post :
  let printed := concat (query_lines psql (clock w) queries) in
  files w !! fn
  = Some (terminated (pre ++ m1 :: indent printed ++ m2 :: post)) →
  all_succeed psql (clock w) queries = true →
  Forall no_break (pre ++ m1 :: m2 :: post) →
  no_marker pre → no_marker post → no_marker printed →
  is_marker m1 = true → is_marker m2 = true →
  update_file psql fn queries w
  = (World (files w) (clock w + length queries), Ok tt).
Proof.
  intros printed Hf Hall Hnb Hpre Hpost Hprinted Hm1 Hm2.
  set (L := pre ++ m1 :: indent printed ++ m2 :: post) in *.
  assert (Forall no_break L) as HL.
  { apply Forall_app in Hnb as [Hnb1 Hnb2].
    inversion Hnb2 as [|? ? Hb1 Hnb3]; subst.
    unfold L. apply Forall_app. split; [done|]. constructor; [done|].
    apply Forall_app. split; [|done].
    apply indent_no_break, query_lines_no_break. }
  assert (marker_indices (splitlines (terminated L))
          = [length pre; length pre + 1 + length (indent printed)]) as Hm.
  { rewrite splitlines_terminated by done. apply marker_indices_two.
    exists pre, m1, (indent printed), m2, post.
    repeat split; try done. by apply no_marker_indent. }
  rewrite (update_file_success psql fn queries w _ _ _ Hf Hall Hm).
  rewrite splitlines_terminated by done. fold printed. unfold L.
  destruct (take_drop_markers pre (indent printed) post m1 m2) as [-> ->].
  rewrite <- app_assoc. simpl. fold L. by rewrite insert_id.
Qed.

Lemma X14_up_to_date_file_unchanged_witness :
  update_file scenario_psql "target" ["q"]
    (on_disk "target"
       (text ["x = 1"; "# autogenerated: start"; "    NEW_A = 1";
              "    NEW_B = 2"; "# autogenerated: end"; "y = 2"]))
  = (World {[ "target" :=
                text ["x = 1"; "# autogenerated: start"; "    NEW_A = 1";
                      "    NEW_B = 2"; "# autogenerated: end"; "y = 2"] ]} 1,
     Ok tt).
Proof.
  rewrite (X14_up_to_date_file_unchanged scenario_psql "target" ["q"]
             (on_disk "target"
                (text ["x = 1"; "# autogenerated: start"; "    NEW_A = 1";
                       "    NEW_B = 2"; "# autogenerated: end"; "y = 2"]))
             [b "x = 1"] (b "# autogenerated: start")
             (b "# autogenerated: end") [b "y = 2"]);
    [reflexivity | reflexivity | reflexivity | repeat constructor
    | repeat constructor | repeat constructor | repeat constructor
    | reflexivity | reflexivity].
Defined.

(** ** A wrong number of markers *)

Lemma all_succeed_first_failure
    (psql : nat → string → proc_result) t queries :
  all_succeed psql t queries = false →
  ∃ k query,
    queries !! k = Some query
    ∧ all_succeed psql t (take k queries) = true
    ∧ succeeded (psql (t + k) query) = false.
Proof.
  revert t. induction queries as [|q qs IH]; intros t; simpl; [done|].
  destruct (succeeded (psql t q)) eqn:Hq; simpl.
  - intros (k & query & Hk & Hall & Hfail)%IH.
    exists (S k), query. simpl. rewrite Hq. simpl.
    replace (t + S k) with (S t + k) by lia. done.
  - intros _. exists 0, q. simpl. by rewrite Nat.add_0_r.
Qed.

(** C2, as the code has it: when the number of marker lines of an
    existing target file is not two, [update_file] ends with an error
    before any write and leaves every file as it was.  The queries run
    before the markers are looked for: the error is the unpacking one
    when every query succeeds, and otherwise it is the error of the
    first query that fails. *)
Theorem C2_wrong_marker_count_is_fatal
    (psql : nat → string → proc_result) fn queries w content :
  files w !! fn = Some content →
  length (marker_indices (splitlines content)) ≠ 2 →
  ∃ e w',
    update_file psql fn queries w = (w', Raise e)
    ∧ files w' = files w
    ∧ (all_succeed psql (clock w) queries = true → is_unpack_error e = true)
    ∧ (all_succeed psql (clock w) queries = false →
       ∃ k query,
         queries !! k = Some query
         ∧ all_succeed psql (clock w) (take k queries) = true
         ∧ succeeded (psql (clock w + k) query) = false
         ∧ e = match psql (clock w + k) query with
               | Exited code _ => CalledProcessError code
               | CannotRun => OSError
               end
         ∧ is_unpack_error e = false).
Proof.
  intros Hf Hn.
  destruct (all_succeed psql (clock w) queries) eqn:Hall.
  - destruct (update_file_unpack_error psql fn queries w content _ _ Hf
                (run_queries_ok psql queries [] w Hall) Hn) as (e & He & Hu).
    exists e, (World (files w) (clock w + length queries)).
    split; [done|]. split; [done|]. by split.
  - destruct (all_succeed_first_failure psql _ _ Hall)
      as (k & query & Hk & Hpre & Hfail).
    eexists _, _. split.
    { apply (update_file_query_error psql fn queries w content); [done|].
      by apply (run_queries_first_failure psql queries [] w k query). }
    simpl. split; [done|]. split; [done|]. intros _.
    exists k, query. repeat split; try done.
    by destruct (psql (clock w + k) query).
Qed.

Lemma C2_wrong_marker_count_is_fatal_witness :
  (∃ e w',
     update_file scenario_psql "target" ["q"] (on_disk "target" start_only_file)
     = (w', Raise e)
     ∧ files w' = {[ "target" := start_only_file ]}
     ∧ is_unpack_error e = true)
  ∧ (∃ e w',
       update_file (failing_psql 1) "target" ["qa"; "qb"]
         (on_disk "target" start_only_file) = (w', Raise e)
       ∧ files w' = {[ "target" := start_only_file ]}
       ∧ e = CalledProcessError 2).
Proof.
  split.
  - destruct (C2_wrong_marker_count_is_fatal scenario_psql "target" ["q"]
                (on_disk "target" start_only_file) start_only_file)
      as (e & w' & H1 & H2 & H3 & _); [reflexivity | by vm_compute |].
    exists e, w'. split; [exact H1|]. split; [exact H2|].
    apply H3. reflexivity.
  - destruct (C2_wrong_marker_count_is_fatal (failing_psql 1) "target"
                ["qa"; "qb"] (on_disk "target" start_only_file)
                start_only_file)
      as (e & w' & H1 & H2 & _ & H4); [reflexivity | by vm_compute |].
    exists e, w'. split; [exact H1|]. split; [exact H2|].
    destruct H4 as (k & query & Hk & Hpre & Hfail & He & _); [reflexivity|].
    rewrite He. destruct k as [|[|[|k]]]; simpl in *;
      [discriminate | by injection Hk as <- | discriminate | discriminate].
Defined.

(** On [start_only_file], which has one marker line, a query that exits
    with code 2 makes [update_file] raise [CalledProcessError]: the
    error is not the unpacking one. *)
Lemma C2_query_error_instead_of_unpack_error :
  length (marker_indices (splitlines start_only_file)) = 1
  ∧ update_file (failing_psql 0) "target" ["q"]
      (on_disk "target" start_only_file)
    = (World {[ "target" := start_only_file ]} 1,
       Raise (CalledProcessError 2))
  ∧ is_unpack_error (CalledProcessError 2) = false.
Proof. repeat split; by vm_compute. Qed.
